(** * Plant Village Blueberry: CSV to COCO aggregation

    A shallow embedding of [scripts/convert_to_coco.py] and the properties
    of its annotation aggregator.

    Layout of the development:
    - [Python]     the pieces of the Python runtime the script relies on
                   (exceptions, [float()], [int()], [str.strip],
                   [csv.DictReader], [sorted(set)]);
    - [Coco]       the records of the COCO output, the file system as the
                   script observes it, the functions of the script, one
                   definition per source function, and the notions the
                   properties are stated with;
    - [Instance64] a runtime on IEEE binary64 numbers, to run the script;
    - [Trees]      explicit directory trees;
    - [Cli]        [build_coco_dict] and [main], with the files written and
                   the lines printed as explicit state, and writes that can
                   fail;
    - [MoreTrees]  further trees and rows;
    - the loop of [collect_annotations_for_split], described as a run of
      blocks, one per resolved image;
    - the properties of the aggregator, then the same on explicit trees;
    - paths, rows and files; more on the aggregator; the program; and
      these on explicit trees.

    Conventions: strings are byte strings (UTF-8), whose order is the order
    of code points that Python compares [str] by; paths are POSIX paths,
    relative to the category root [<root>/blueberries].

    Scope: a tree is given by the answers to the queries of the script.  A
    query that the operating system or the decoder refuses (an existence
    test on a name longer than the system allows, which raises before
    Python 3.14; a CSV file that is not UTF-8 text, or holds a field longer
    than [csv] accepts) has no answer here, and a call that makes one does
    not return.  The general properties of the aggregator therefore never
    conclude that a call returns: they are about the output of a call that
    returns, conclude that a call raises, or compare two calls.  That a
    call returns is concluded on explicit trees only, whose queries are all
    answered. *)

From Stdlib Require Import ZArith Ascii String PrimFloat Uint63.
From stdpp Require Import gmap strings list sorting.

Set Warnings "-clear-no-such-hyp".

Local Open Scope string_scope.
Local Open Scope list_scope.
Local Open Scope Z_scope.

(** ** The Python runtime *)
Module Python.

(** The exceptions that can travel through the script, each standing for
    its subclasses: [OSError] for whatever PIL raises on a file it cannot
    open as an image, and for the [FileExistsError] and [FileNotFoundError]
    of [mkdir] and [open]; [ValueError] also for the [UnicodeEncodeError]
    of a write. *)
Inductive exn := ValueError | KeyError | TypeError | OSError.

#[global] Instance exn_eq_dec : EqDecision exn.
Proof. solve_decision. Defined.

(** A computation that returns or raises. *)
Inductive result (A : Type) :=
| Ok (a : A)
| Raise (e : exn).
#[global] Arguments Ok {A} a.
#[global] Arguments Raise {A} e.

#[global] Instance result_ret : MRet result := λ A a, Ok a.
#[global] Instance result_bind : MBind result := λ A B k m,
  match m with
  | Ok a => k a
  | Raise e => Raise e
  end.

Definition is_ok {A} (m : result A) : bool :=
  match m with Ok _ => true | Raise _ => false end.

(** The values that reach [float()] and [int()] in the script: a cell of a
    CSV row (a [str]), the [None] that [csv.DictReader] puts in place of a
    cell missing from a short row, or the integer literal given as the
    default of [dict.get]. *)
Inductive pyval :=
| PyNone
| PyStr (s : string)
| PyInt (z : Z).

#[global] Instance pyval_eq_dec : EqDecision pyval.
Proof. solve_decision. Defined.

(** The builtins of CPython that the script calls and that are not part of
    the repository.  They are kept abstract: every general theorem below
    holds for any implementation of them. *)
Class Builtins := {
  pyfloat : Type;
  (** [float(s)] on a [str]; [None] is [ValueError]. *)
  float_of_str : string → option pyfloat;
  (** [float(n)] on an [int]. *)
  float_of_int : Z → pyfloat;
  float_mul : pyfloat → pyfloat → pyfloat;
  float_ltb : pyfloat → pyfloat → bool;
  float_leb : pyfloat → pyfloat → bool;
  (** [int(s)] on a [str]; [None] is [ValueError]. *)
  int_of_str : string → option Z;
  (** [s.strip()]. *)
  str_strip : string → string;
}.

Section builtins.
Context `{Builtins}.

(** [float(v)]. *)
Definition float (v : pyval) : result pyfloat :=
  match v with
  | PyNone => Raise TypeError
  | PyStr s =>
      match float_of_str s with
      | Some f => Ok f
      | None => Raise ValueError
      end
  | PyInt z => Ok (float_of_int z)
  end.

(** [int(v)]. *)
Definition int (v : pyval) : result Z :=
  match v with
  | PyNone => Raise TypeError
  | PyStr s =>
      match int_of_str s with
      | Some z => Ok z
      | None => Raise ValueError
      end
  | PyInt z => Ok z
  end.

(** A number of the output: the synthetic boxes carry [int]s, the boxes
    read from a CSV file carry [float]s. *)
Inductive num :=
| NInt (z : Z)
| NFloat (f : pyfloat).

(** [a * b] *)
Definition num_mul (a b : num) : num :=
  match a, b with
  | NInt x, NInt y => NInt (x * y)
  | NInt x, NFloat g => NFloat (float_mul (float_of_int x) g)
  | NFloat f, NInt y => NFloat (float_mul f (float_of_int y))
  | NFloat f, NFloat g => NFloat (float_mul f g)
  end.

(** [a > 0] and [a >= 0] *)
Definition num_pos (a : num) : bool :=
  match a with
  | NInt x => bool_decide (0 < x)
  | NFloat f => float_ltb (float_of_int 0) f
  end.
Definition num_nonneg (a : num) : bool :=
  match a with
  | NInt x => bool_decide (0 ≤ x)
  | NFloat f => float_leb (float_of_int 0) f
  end.
End builtins.

(** A [dict] with [str] keys. *)
Abbreviation dict := (gmap string pyval).

(** [d.get(k, dflt)] and [k in d] *)
Definition dict_get (d : dict) (k : string) (dflt : pyval) : pyval :=
  default dflt (d !! k).
Definition dict_in (k : string) (d : dict) : bool :=
  bool_decide (is_Some (d !! k)).

(** ** [csv.DictReader]

    A CSV file is given by the rows [csv.reader] yields for it, each a
    list of cells; a blank line yields the empty list. *)
Abbreviation csv_rows := (list (list string)).

(** [dict(zip(fieldnames, row))], followed by the loop that gives the
    fields missing from a short row the value [restval = None].  The cells
    in excess of a long row are stored under the key [restkey = None],
    which is not a [str] and which no lookup of the script reads: they are
    left out. *)
Fixpoint zip_fill (fieldnames row : list string) : list (string * pyval) :=
  match fieldnames, row with
  | [], _ => []
  | k :: ks, [] => (k, PyNone) :: zip_fill ks []
  | k :: ks, c :: cs => (k, PyStr c) :: zip_fill ks cs
  end.

Definition dict_of_items (kvs : list (string * pyval)) : dict :=
  foldl (λ d kv, <[kv.1 := kv.2]> d) ∅ kvs.

Definition dict_row (fieldnames row : list string) : dict :=
  dict_of_items (zip_fill fieldnames row).

Definition nonblank (row : list string) : bool :=
  match row with [] => false | _ => true end.

(** The rows [csv.DictReader(f)] iterates over: the first row of the file
    gives the field names, blank rows after it are not returned. *)
Definition DictReader (f : csv_rows) : list dict :=
  match f with
  | [] => []
  | fieldnames :: rows => dict_row fieldnames <$> filter nonblank rows
  end.

(** [sorted(s)] for a set of strings: the elements in increasing order of
    their code points. *)
Definition sorted (s : gset string) : list string :=
  merge_sort String.le (elements s).

End Python.

(** ** The script *)
Module Coco.
Import Python.

(** *** Paths *)

(** [name.endswith(suffix)], the test behind the patterns ["*.png"],
    ["*.jpg"] and ["*.JPG"] of [Path.glob] (POSIX: case matters, and a
    leading dot is not special for [pathlib]). *)
Definition ends_with (suffix name : string) : bool :=
  bool_decide (String.length suffix ≤ String.length name)%nat &&
  bool_decide (String.substring (String.length name - String.length suffix)
                         (String.length suffix) name = suffix).

(** Position of the last ['.'] of a name, counted from the left. *)
Fixpoint rfind_dot (name : string) : option nat :=
  match name with
  | EmptyString => None
  | String c rest =>
      match rfind_dot rest with
      | Some i => Some (S i)
      | None => if bool_decide (c = "."%char) then Some 0%nat else None
      end
  end.

(** [PurePath.stem]: the name without its last suffix; a dot in first or
    in last position does not start a suffix. *)
Definition stem (name : string) : string :=
  match rfind_dot name with
  | Some i =>
      if bool_decide (0 < i < String.length name - 1)%nat
      then String.substring 0 i name
      else name
  | None => name
  end.

(** [PurePath.name] of a relative path: what follows its last ['/']. *)
Fixpoint path_name (rel : string) : string :=
  match rel with
  | EmptyString => EmptyString
  | String c rest =>
      if bool_decide ("/"%char ∈ list_ascii_of_string rest) then path_name rest
      else if bool_decide (c = "/"%char) then rest
      else rel
  end.

(** *** The file system, as the script observes it

    Everything is relative to [category_root].  Each field is the answer
    to one of the queries the script makes, for the queries that are
    answered: see the scope of the development. *)
Record filesystem := {
  (** [sets/<file>]: [None] if it does not exist, else
      [read_text().splitlines()]. *)
  sets_file : string → option (list string);
  (** [category_root.glob("*")]: the name of every child and whether it
      [is_dir()], in the order the operating system lists them. *)
  root_glob : list (string * bool);
  (** [(category_root / d / "images").exists()] *)
  images_exists : string → bool;
  (** the names of the children of [category_root / d / "images"], in the
      order the operating system lists them. *)
  images_glob : string → list string;
  (** [category_root / d / "images" / f]: [None] if it does not exist,
      else what [image_size] makes of it. *)
  images_file : string → string → option (result (Z * Z));
  (** [category_root / d / "csv" / f]: [None] if it does not exist, else
      the rows [csv.reader] yields. *)
  csv_file : string → string → option csv_rows;
}.

(** *** The records of the output *)
Record category := {
  cat_id : Z;
  cat_name : string;
  cat_supercategory : string;
}.

Record image := {
  img_id : Z;
  img_file_name : string;
  img_width : Z;
  img_height : Z;
}.

Section script.
Context `{Builtins}.

(** A box returned by [parse_csv_boxes].  [box_category_id] is read with
    [box.get('category_id', ...)], hence the option. *)
Record box := {
  box_bbox : list num;
  box_area : num;
  box_category_id : option Z;
}.

Record annotation := {
  ann_id : Z;
  ann_image_id : Z;
  ann_category_id : Z;
  ann_bbox : list num;
  ann_area : num;
  ann_iscrowd : Z;
}.

(** [read_split_list] *)
Definition read_split_list (split_file : option (list string))
  : list string :=
  match split_file with
  | None => []
  | Some text_lines =>
      let lines := str_strip <$> text_lines in
      filter (λ line, line ≠ "") lines
  end.

(** [image_size] *)
Definition image_size (fs : filesystem) (d f : string) : result (Z * Z) :=
  match images_file fs d f with
  | Some r => r
  | None => Raise OSError
  end.

(** The body of the [try] block of [parse_csv_boxes]: [None] when the
    row is left ([continue], or a box that is not appended). *)
Definition parse_row (row : dict) : result (option box) :=
  if bool_decide (dict_get row "#item" PyNone = PyNone)
     && negb (dict_in "item" row)
  then mret None
  else
    let item_key := if dict_in "#item" row then "#item" else "item" in
    if negb (dict_in item_key row) then mret None
    else
      x ← float (dict_get row "x" (PyInt 0));
      y ← float (dict_get row "y" (PyInt 0));
      width ← float (dict_get row "width"
                       (dict_get row "w" (dict_get row "dx" (PyInt 0))));
      height ← float (dict_get row "height"
                        (dict_get row "h" (dict_get row "dy" (PyInt 0))));
      label ← int (dict_get row "label" (PyInt 1));
      if float_ltb (float_of_int 0) width
         && float_ltb (float_of_int 0) height
      then mret (Some {| box_bbox := [NFloat x; NFloat y;
                                      NFloat width; NFloat height];
                         box_area := NFloat (float_mul width height);
                         box_category_id := Some label |})
      else mret None.

(** [try: ... except (ValueError, KeyError): continue] *)
Definition try_row (row : dict) : result (option box) :=
  match parse_row row with
  | Raise ValueError | Raise KeyError => Ok None
  | r => r
  end.

(** The loop [for row in reader] with its accumulator [boxes]. *)
Fixpoint parse_rows (rows : list dict) (boxes : list box)
  : result (list box) :=
  match rows with
  | [] => Ok boxes
  | row :: rest =>
      b ← try_row row;
      parse_rows rest (match b with
                       | Some b => boxes ++ [b]
                       | None => boxes
                       end)
  end.

(** [parse_csv_boxes] *)
Definition parse_csv_boxes (csv : option csv_rows) : result (list box) :=
  match csv with
  | None => Ok []
  | Some f => parse_rows (DictReader f) []
  end.

(** *** [collect_annotations_for_split] *)

(** [{p.stem for p in images_dir.glob("*" + ext)}] *)
Definition glob_stems (fs : filesystem) (d ext : string) : gset string :=
  list_to_set (stem <$> filter (λ f, ends_with ext f) (images_glob fs d)).

(** The body of [for subcat_dir in category_root.glob("*")]. *)
Definition scan_subcat (fs : filesystem) (image_stems : gset string)
    (subcat_dir : string * bool) : gset string :=
  let '(name, is_dir) := subcat_dir in
  if is_dir && bool_decide (name ≠ "sets") then
    if images_exists fs name then
      image_stems ∪ glob_stems fs name ".png"
                  ∪ glob_stems fs name ".jpg"
                  ∪ glob_stems fs name ".JPG"
    else image_stems
  else image_stems.

(** The fallback: all images, when there is no split file. *)
Definition fallback_stems (fs : filesystem) : gset string :=
  foldl (scan_subcat fs) ∅ (root_glob fs).

(** The value of [image_stems] when the main loop starts. *)
Definition split_stems (fs : filesystem) (split : string) : gset string :=
  let image_stems : gset string :=
    list_to_set (read_split_list (sets_file fs (split +:+ ".txt"))) in
  if bool_decide (image_stems = ∅) then fallback_stems fs
  else image_stems.

Definition categories : list category :=
  [ {| cat_id := 1; cat_name := "healthy";
       cat_supercategory := "blueberry" |};
    {| cat_id := 2; cat_name := "background_without_leaves";
       cat_supercategory := "blueberry" |} ].

Definition subcategory_names : list string := ["healthy"; "background"].

Definition image_exts : list string :=
  [".png"; ".jpg"; ".JPG"; ".PNG"; ".jpeg"; ".JPEG"].

Definition category_id_map : gmap string Z :=
  {[ "healthy" := 1; "background" := 2 ]}.

(** The inner loop [for ext in [...]]: the file name of the first
    [test_path] that exists. *)
Fixpoint find_ext (fs : filesystem) (subcat_name stem : string)
    (exts : list string) : option string :=
  match exts with
  | [] => None
  | ext :: rest =>
      if bool_decide (is_Some (images_file fs subcat_name (stem +:+ ext)))
      then Some (stem +:+ ext)
      else find_ext fs subcat_name stem rest
  end.

(** The loop [for subcat_name in subcategory_names], left at the first
    hit: the subcategory and the file name of [img_path]. *)
Fixpoint find_image (fs : filesystem) (stem : string)
    (subcats : list string) : option (string * string) :=
  match subcats with
  | [] => None
  | subcat_name :: rest =>
      match find_ext fs subcat_name stem image_exts with
      | Some f => Some (subcat_name, f)
      | None => find_image fs stem rest
      end
  end.

(** The variables the main loop updates. *)
Record state := {
  images : list image;
  anns : list annotation;
  image_id_counter : Z;
  ann_id_counter : Z;
}.

(** The record appended for a box of the CSV file. *)
Definition box_annotation (id image_id default_category_id : Z) (b : box)
  : annotation :=
  let cat_id := default default_category_id (box_category_id b) in
  {| ann_id := id;
     ann_image_id := image_id;
     ann_category_id := cat_id;
     ann_bbox := box_bbox b;
     ann_area := box_area b;
     ann_iscrowd := 0 |}.

(** The full-image record, appended in the two [else] branches. *)
Definition full_image_annotation
    (id image_id default_category_id width height : Z) : annotation :=
  {| ann_id := id;
     ann_image_id := image_id;
     ann_category_id := default_category_id;
     ann_bbox := [NInt 0; NInt 0; NInt width; NInt height];
     ann_area := NInt (width * height);
     ann_iscrowd := 0 |}.

(** The body of [for box in boxes], on [anns] and [ann_id_counter]. *)
Definition add_box (image_id default_category_id : Z)
    (acc : list annotation * Z) (b : box) : list annotation * Z :=
  (acc.1 ++ [box_annotation acc.2 image_id default_category_id b],
   acc.2 + 1).

Definition add_full_image (image_id default_category_id width height : Z)
    (acc : list annotation * Z) : list annotation * Z :=
  (acc.1 ++ [full_image_annotation acc.2 image_id default_category_id
                                   width height],
   acc.2 + 1).

(** The record appended to [images]. *)
Definition image_record (id : Z) (subcategory img_name : string)
    (width height : Z) : image :=
  {| img_id := id;
     img_file_name := "blueberries/" +:+ subcategory
                      +:+ "/images/" +:+ path_name img_name;
     img_width := width;
     img_height := height |}.

(** The body of [for stem in sorted(image_stems)]. *)
Definition process_stem (fs : filesystem) (st : state) (stem : string)
  : result state :=
  match find_image fs stem subcategory_names with
  | None => mret st
  | Some (subcategory, img_name) =>
      '(width, height) ← image_size fs subcategory img_name;
      let images' :=
        images st ++ [image_record (image_id_counter st) subcategory
                                   img_name width height] in
      let default_category_id :=
        default 1 (category_id_map !! subcategory) in
      let acc := (anns st, ann_id_counter st) in
      acc' ←
        match csv_file fs subcategory (stem +:+ ".csv") with
        | Some f =>
            boxes ← parse_csv_boxes (Some f);
            match boxes with
            | _ :: _ =>
                mret (foldl (add_box (image_id_counter st)
                                     default_category_id) acc boxes)
            | [] =>
                mret (add_full_image (image_id_counter st)
                        default_category_id width height acc)
            end
        | None =>
            mret (add_full_image (image_id_counter st)
                    default_category_id width height acc)
        end;
      mret {| images := images';
              anns := acc'.1;
              image_id_counter := image_id_counter st + 1;
              ann_id_counter := acc'.2 |}
  end.

Fixpoint process_stems (fs : filesystem) (stems : list string)
    (st : state) : result state :=
  match stems with
  | [] => mret st
  | stem :: rest =>
      st' ← process_stem fs st stem;
      process_stems fs rest st'
  end.

Definition initial_state : state :=
  {| images := []; anns := [];
     image_id_counter := 1; ann_id_counter := 1 |}.

Definition collect_annotations_for_split (fs : filesystem)
    (split : string)
  : result (list image * list annotation * list category) :=
  st ← process_stems fs (sorted (split_stems fs split)) initial_state;
  mret (images st, anns st, categories).

(** *** Notions used to state the properties *)

(** A base name is resolvable when some subcategory holds an image for
    it. *)
Definition resolvable (fs : filesystem) (stem : string) : bool :=
  bool_decide (is_Some (find_image fs stem subcategory_names)).

(** The resolvable base names of a split, in the order of the loop. *)
Definition resolved_stems (fs : filesystem) (split : string)
  : list string :=
  filter (λ s, resolvable fs s) (sorted (split_stems fs split)).

(** A row is accepted when a box is appended for it. *)
Definition accepted (row : dict) : bool :=
  match parse_row row with
  | Ok (Some _) => true
  | _ => false
  end.

(** The box appended for a row, if any. *)
Definition row_box (row : dict) : option box :=
  match parse_row row with
  | Ok (Some b) => Some b
  | _ => None
  end.

(** The row carries an item/index column: the first test of the loop body
    does not skip it. *)
Definition has_item (row : dict) : bool :=
  negb (bool_decide (dict_get row "#item" PyNone = PyNone)
        && negb (dict_in "item" row)).

(** The cells read as [x], [y], width, height and label. *)
Definition x_cell (row : dict) : pyval := dict_get row "x" (PyInt 0).
Definition y_cell (row : dict) : pyval := dict_get row "y" (PyInt 0).
Definition width_cell (row : dict) : pyval :=
  dict_get row "width" (dict_get row "w" (dict_get row "dx" (PyInt 0))).
Definition height_cell (row : dict) : pyval :=
  dict_get row "height" (dict_get row "h" (dict_get row "dy" (PyInt 0))).
Definition label_cell (row : dict) : pyval := dict_get row "label" (PyInt 1).

(** The pairs (subcategory, file name) tried for a base name, in the
    order the two nested loops try them. *)
Definition candidates (stem : string) : list (string * string) :=
  subcat_name ← subcategory_names;
  ext ← image_exts;
  [(subcat_name, stem +:+ ext)].

(** The same tree with another content of the [sets] directory. *)
Definition with_sets_file (g : string → option (list string))
    (fs : filesystem) : filesystem :=
  {| sets_file := g;
     root_glob := root_glob fs;
     images_exists := images_exists fs;
     images_glob := images_glob fs;
     images_file := images_file fs;
     csv_file := csv_file fs |}.

(** Two observations of one tree: the same files with the same content,
    listed by the operating system in any order. *)
Record same_contents (fs1 fs2 : filesystem) : Prop := {
  same_sets : ∀ f, sets_file fs1 f = sets_file fs2 f;
  same_root : root_glob fs1 ≡ₚ root_glob fs2;
  same_images_exists : ∀ d, images_exists fs1 d = images_exists fs2 d;
  same_images_glob : ∀ d, images_glob fs1 d ≡ₚ images_glob fs2 d;
  same_images_file : ∀ d f, images_file fs1 d f = images_file fs2 d f;
  same_csv_file : ∀ d f, csv_file fs1 d f = csv_file fs2 d f;
}.

(** A file name matched by one of the three patterns of the fallback. *)
Definition globbed (f : string) : Prop :=
  ends_with ".png" f ∨ ends_with ".jpg" f ∨ ends_with ".JPG" f.

(** A file name with one of the extensions the main loop recognises. *)
Definition is_image_name (f : string) : bool :=
  bool_decide (Exists (λ ext, ends_with ext f) image_exts).

(** The fallback as the specification words it: the base names of all
    images found under the image directory of every known
    subcategory. *)
Definition known_subcategory_stems (fs : filesystem) : gset string :=
  ⋃ ((λ d, list_to_set (stem <$> filter (λ f, is_image_name f)
                                        (images_glob fs d)))
       <$> subcategory_names).

(** A bounding box [x, y, width, height] with [x >= 0], [y >= 0],
    [width > 0] and [height > 0]. *)
Definition bbox_valid (a : annotation) : bool :=
  match ann_bbox a with
  | [x; y; width; height] =>
      num_nonneg x && num_nonneg y && num_pos width && num_pos height
  | _ => false
  end.

(** The annotations the body of the main loop appends for a resolved image
    of size [w] x [h], when the counters are [iid] and [aid]. *)
Definition block (fs : filesystem) (s subcat : string) (w h iid aid : Z)
    (l : list annotation) : Prop :=
  let dflt := default 1 (category_id_map !! subcat) in
  match csv_file fs subcat (s +:+ ".csv") with
  | Some f =>
      ∃ boxes, parse_csv_boxes (Some f) = Ok boxes ∧
        l = match boxes with
            | [] => [full_image_annotation aid iid dflt w h]
            | _ :: _ =>
                imap (λ i b, box_annotation (aid + Z.of_nat i) iid dflt b)
                     boxes
            end
  | None => l = [full_image_annotation aid iid dflt w h]
  end.

(** What a successful run of the main loop over [stems] appends to [images]
    and [anns], starting from the counters [iid] and [aid]. *)
Inductive blocks (fs : filesystem)
  : list string → Z → Z → list image → list annotation → Prop :=
| blocks_nil iid aid : blocks fs [] iid aid [] []
| blocks_skip s stems iid aid ims l :
    find_image fs s subcategory_names = None →
    blocks fs stems iid aid ims l →
    blocks fs (s :: stems) iid aid ims l
| blocks_image s stems iid aid subcat name w h b ims l :
    find_image fs s subcategory_names = Some (subcat, name) →
    image_size fs subcat name = Ok (w, h) →
    block fs s subcat w h iid aid b →
    blocks fs stems (iid + 1) (aid + Z.of_nat (length b)) ims l →
    blocks fs (s :: stems) iid aid
           (image_record iid subcat name w h :: ims) (b ++ l).
End script.
End Coco.

(** ** A runtime on IEEE binary64

    An implementation of [Python.Builtins] on Rocq's primitive binary64
    floats, to run the script on explicit inputs.  [float_of_str] and
    [int_of_str] read plain decimal literals (optional sign, digits, optional
    fraction).  For a float the digits must make a number below 2^53 with at
    most fifteen decimals: numerator and denominator are then binary64
    numbers, and their correctly rounded quotient is the binary64 number
    nearest to the literal, which is what CPython returns.  On everything
    else they answer [None], which is narrower than CPython.  The general
    theorems do not depend on this instance. *)
Module Instance64.
Import Python.

Definition is_space (c : ascii) : bool :=
  let n := nat_of_ascii c in
  bool_decide (9 ≤ n ≤ 13 ∨ 28 ≤ n ≤ 32)%nat.

Fixpoint lstrip (s : list ascii) : list ascii :=
  match s with
  | c :: rest => if is_space c then lstrip rest else s
  | [] => []
  end.

Definition strip (s : string) : string :=
  string_of_list_ascii
    (reverse (lstrip (reverse (lstrip (list_ascii_of_string s))))).

Definition digit (c : ascii) : option Z :=
  let n := Z.of_nat (nat_of_ascii c) in
  if bool_decide (48 ≤ n ≤ 57) then Some (n - 48) else None.

(** Reads digits off the front of [s] into the accumulator; returns the
    value, the number of digits read and what is left. *)
Fixpoint digits (s : list ascii) (acc : Z) (n : nat)
  : Z * nat * list ascii :=
  match s with
  | c :: rest =>
      match digit c with
      | Some d => digits rest (10 * acc + d) (S n)
      | None => (acc, n, s)
      end
  | [] => (acc, n, [])
  end.

Definition sign (s : list ascii) : bool * list ascii :=
  match s with
  | "-"%char :: rest => (true, rest)
  | "+"%char :: rest => (false, rest)
  | _ => (false, s)
  end.

Definition int_of_str (s : string) : option Z :=
  let '(neg, body) := sign (list_ascii_of_string (strip s)) in
  match digits body 0 0 with
  | (m, S _, []) => Some (if neg then - m else m)
  | _ => None
  end.

Definition float_of_Z (z : Z) : PrimFloat.float :=
  let f := PrimFloat.of_uint63 (Uint63.of_Z (Z.abs z)) in
  if bool_decide (z < 0) then PrimFloat.opp f else f.

Definition float_of_str (s : string) : option PrimFloat.float :=
  let '(neg, body) := sign (list_ascii_of_string (strip s)) in
  let '(m, n, rest) := digits body 0 0 in
  let '(m, k, n, rest) :=
    match rest with
    | "."%char :: frac =>
        let '(m', k, rest') := digits frac m 0 in (m', k, (n + k)%nat, rest')
    | _ => (m, 0%nat, n, rest)
    end in
  match n, rest with
  | S _, [] =>
      if bool_decide (m < 2 ^ 53 ∧ (k ≤ 15)%nat) then
        let f := PrimFloat.div (float_of_Z m) (float_of_Z (10 ^ Z.of_nat k)) in
        Some (if neg then PrimFloat.opp f else f)
      else None
  | _, _ => None
  end.

#[export] Instance builtins64 : Builtins := {|
  pyfloat := PrimFloat.float;
  Python.float_of_str := float_of_str;
  float_of_int := float_of_Z;
  float_mul := PrimFloat.mul;
  float_ltb := PrimFloat.ltb;
  float_leb := PrimFloat.leb;
  Python.int_of_str := int_of_str;
  str_strip := strip;
|}.
End Instance64.

(** ** Directory trees to run the script on *)
Module Trees.
Import Python Coco Instance64.

(** A directory of images given by its listing. *)
Definition listing := list (string * result (Z * Z)).

Fixpoint lookup_file {A} (l : list (string * A)) (f : string) : option A :=
  match l with
  | [] => None
  | (g, a) :: rest => if bool_decide (g = f) then Some a else lookup_file rest f
  end.

(** A tree with the two subcategory directories [healthy] and
    [background], each with an [images] and a [csv] directory, an optional
    [sets/train.txt], and possibly other directories [extra], each with an
    [images] directory. *)
Definition tree (train : option (list string))
    (healthy background : listing)
    (healthy_csv background_csv : list (string * csv_rows))
    (extra : list (string * listing)) : filesystem :=
  let dirs := [("healthy", healthy); ("background", background)] ++ extra in
  {| sets_file f := if bool_decide (f = "train.txt") then train else None;
     root_glob := (("sets", true) :: ((λ d, (d.1, true)) <$> dirs));
     images_exists d := bool_decide (is_Some (lookup_file dirs d));
     images_glob d := (default [] (lookup_file dirs d)).*1;
     images_file d f := lookup_file dirs d ≫= λ l, lookup_file l f;
     csv_file d f :=
       if bool_decide (d = "healthy") then lookup_file healthy_csv f
       else if bool_decide (d = "background")
            then lookup_file background_csv f
            else None |}.

Definition header : list string :=
  ["#item"; "x"; "y"; "width"; "height"; "label"].

(** The example of the specification: [healthy/images/a.jpg] (100 x 80)
    without CSV file, [background/images/b.jpg] (50 x 50) with one row
    under the column names [w] and [h], and a split listing [a] and [b]. *)
Definition fs_spec_example : filesystem :=
  tree (Some ["a"; "b"])
       [("a.jpg", Ok (100, 80))] [("b.jpg", Ok (50, 50))]
       [] [("b.csv", [["#item"; "x"; "y"; "w"; "h"; "label"];
                      ["0"; "0"; "0"; "50"; "50"; "2"]])]
       [].

(** The output of the script on the example. *)
Definition example_images : list image :=
  [image_record 1 "healthy" "a.jpg" 100 80;
   image_record 2 "background" "b.jpg" 50 50].

Definition example_box : box :=
  {| box_bbox := [NFloat 0%float; NFloat 0%float;
                  NFloat 50%float; NFloat 50%float];
     box_area := NFloat 2500%float;
     box_category_id := Some 2 |}.

Definition example_annotations : list annotation :=
  [full_image_annotation 1 1 1 100 80; box_annotation 2 2 2 example_box].

(** A background image whose CSV file has no [label] column. *)
Definition fs_no_label : filesystem :=
  tree (Some ["b"])
       [] [("b.jpg", Ok (50, 50))]
       [] [("b.csv", [["#item"; "x"; "y"; "width"; "height"];
                      ["0"; "0"; "0"; "50"; "50"]])]
       [].

(** A CSV file whose first row stops after the [width] cell. *)
Definition csv_short_row : csv_rows :=
  [header; ["0"; "0"; "0"; "50"]; ["1"; "0"; "0"; "50"; "50"; "1"]].

Definition fs_short_row : filesystem :=
  tree (Some ["a"])
       [("a.jpg", Ok (100, 80))] []
       [("a.csv", csv_short_row)] []
       [].

(** A CSV file whose second row has a width that is not a number. *)
Definition csv_bad_width : csv_rows :=
  [header; ["0"; "0"; "0"; "50"; "50"; "1"];
           ["1"; "0"; "0"; "wide"; "50"; "1"];
           ["2"; "5"; "5"; "20"; "10"; "2"]].

(** No split file; [healthy/images/a.jpeg] and, in a directory that is not
    a subcategory, [other/images/z.png]. *)
Definition fs_fallback : filesystem :=
  tree None
       [("a.jpeg", Ok (10, 10))] []
       [] []
       [("other", [("z.png", Ok (5, 5))])].

(** A row with a negative [x]. *)
Definition fs_negative_x : filesystem :=
  tree (Some ["a"])
       [("a.jpg", Ok (100, 80))] []
       [("a.csv", [header; ["0"; "-5"; "0"; "10"; "10"; "1"]])] []
       [].

(** The box of that row. *)
Definition negative_x_box : box :=
  {| box_bbox := [NFloat (-5)%float; NFloat 0%float;
                  NFloat 10%float; NFloat 10%float];
     box_area := NFloat 100%float;
     box_category_id := Some 1 |}.

(** The tree of the example with a split file that lists, in another
    order, two more names for which there is no image. *)
Definition train_with_missing (f : string) : option (list string) :=
  if bool_decide (f = "train.txt") then Some ["zzz"; "b"; "missing"; "a"]
  else None.

(** No split file, several images, one with two rows. *)
Definition fs_scan : filesystem :=
  tree None
       [("a.jpg", Ok (100, 80)); ("c.png", Ok (64, 64))]
       [("b.JPG", Ok (50, 50))]
       [("c.csv", [header; ["0"; "1"; "2"; "30"; "40"; "1"];
                           ["1"; "3"; "4"; "10"; "20"; "1"]])] []
       [].

(** The same tree, listed by the operating system in the reverse order. *)
Definition relisted (fs : filesystem) : filesystem :=
  {| sets_file := sets_file fs;
     root_glob := reverse (root_glob fs);
     images_exists := images_exists fs;
     images_glob d := reverse (images_glob fs d);
     images_file := images_file fs;
     csv_file := csv_file fs |}.
End Trees.

(** ** The command line program

    [build_coco_dict] and [main], from the point where the arguments are
    parsed.  The two path arguments decide where the tree is read and where
    the files are written; here the tree is the [filesystem] the aggregator
    reads, the same during the whole run (the files [main] writes are
    [.json] files, which no query of the aggregator looks at), and a
    written file is named by its name inside the output directory.  Making
    the output directory and writing a file can fail: what they do is given
    by an [output_os]. *)
Module Cli.
Import Python Coco.

Record info := {
  info_year : Z;
  info_version : string;
  info_description : string;
  info_url : string;
}.

Record license := {
  lic_id : Z;
  lic_name : string;
  lic_url : string;
}.

(** The lines of the standard output, one constructor per [print] of
    [main], with the values the line shows (the resolved root and the
    output directory are left out). *)
Inductive message :=
| MsgCategoryRootNotFound
| MsgConverting
| MsgRoot
| MsgOutput
| MsgSplits (splits : list string)
| MsgProcessing (split : string)
| MsgWarningNoImages (split : string)
| MsgCreated (output_file : string)
| MsgImages (n : nat)
| MsgAnnotations (n : nat)
| MsgCategories (n : nat)
| MsgGeneratingCombined
| MsgComplete.

(** The arguments [--splits] and [--combined]. *)
Record args := {
  arg_splits : list string;
  arg_combined : bool;
}.

(** How a run of [main] ends: it returns, it leaves through [sys.exit], or
    an exception goes through it. *)
Inductive outcome :=
| Returned
| Exited (status : Z)
| Uncaught (e : exn).

(** What the two lines [with open(output_file, "w", ...) as f:] and
    [json.dump(coco_dict, f, ...)] do for one file. *)
Inductive dump_result :=
| Dumped                  (* the file holds the whole document *)
| OpenRaises (e : exn)    (* [open] raises: no file is made or changed *)
| DumpRaises (e : exn).   (* [json.dump] raises: the file is left cut short *)

Section cli.
Context `{Builtins}.

Record coco_dict := {
  coco_info : info;
  coco_licenses : list license;
  coco_images : list image;
  coco_annotations : list annotation;
  coco_categories : list category;
}.

(** [build_coco_dict] *)
Definition build_coco_dict (images : list image) (anns : list annotation)
    (categories : list category) (description : string) : coco_dict :=
  {| coco_info :=
       {| info_year := 2025;
          info_version := "1.0.0";
          info_description := description;
          info_url :=
            "https://www.kaggle.com/datasets/abdallahalidev/plantvillage-dataset" |};
     coco_licenses :=
       [ {| lic_id := 1;
            lic_name := "CC BY 4.0";
            lic_url := "https://creativecommons.org/licenses/by/4.0/" |} ];
     coco_images := images;
     coco_annotations := anns;
     coco_categories := categories |}.

(** What is in a file of the output directory after a write. *)
Inductive file_state :=
| Whole (c : coco_dict)
| Truncated.

(** The operating system, on the side of the output: whether
    [out_dir.mkdir(parents=True, exist_ok=True)] raises, and what writing a
    document under a name does. *)
Record output_os := {
  mkdir_raises : option exn;
  dump_result_of : string → coco_dict → dump_result;
}.

(** What a run has done so far: the output directory made, the files
    written, in order, and the lines printed. *)
Record world := {
  out_dir_made : bool;
  written : list (string * file_state);
  stdout : list message;
}.

Definition mkdir_out_dir (w : world) : world :=
  {| out_dir_made := true; written := written w; stdout := stdout w |}.

Definition print (m : message) (w : world) : world :=
  {| out_dir_made := out_dir_made w;
     written := written w;
     stdout := stdout w ++ [m] |}.

Definition set_file (output_file : string) (st : file_state) (w : world)
  : world :=
  {| out_dir_made := out_dir_made w;
     written := written w ++ [(output_file, st)];
     stdout := stdout w |}.

(** [with open(output_file, "w", ...) as f: json.dump(coco_dict, f, ...)];
    [Some e] when one of the two raises [e]. *)
Definition json_dump (os : output_os) (output_file : string) (c : coco_dict)
    (w : world) : world * option exn :=
  match dump_result_of os output_file c with
  | Dumped => (set_file output_file (Whole c) w, None)
  | OpenRaises e => (w, Some e)
  | DumpRaises e => (set_file output_file Truncated w, Some e)
  end.

(** The first loop of [main], [for split in args.splits]; [Some e] when the
    aggregator or a write raises [e], which ends the loop and the run. *)
Fixpoint split_loop (os : output_os) (fs : filesystem)
    (splits : list string) (w : world) : world * option exn :=
  match splits with
  | [] => (w, None)
  | split :: rest =>
      let w := print (MsgProcessing split) w in
      match collect_annotations_for_split fs split with
      | Raise e => (w, Some e)
      | Ok (images, anns, categories) =>
          match images with
          | [] => split_loop os fs rest (print (MsgWarningNoImages split) w)
          | _ :: _ =>
              let description :=
                "Plant Village Blueberry " +:+ split +:+ " split" in
              let coco_dict :=
                build_coco_dict images anns categories description in
              let output_file :=
                "blueberries_instances_" +:+ split +:+ ".json" in
              match json_dump os output_file coco_dict w with
              | (w, Some e) => (w, Some e)
              | (w, None) =>
                  let w := print (MsgCreated output_file) w in
                  let w := print (MsgImages (length images)) w in
                  let w := print (MsgAnnotations (length anns)) w in
                  let w := print (MsgCategories (length categories)) w in
                  split_loop os fs rest w
              end
          end
      end
  end.

(** The second loop, under [if args.combined]. *)
Fixpoint combined_loop (os : output_os) (fs : filesystem)
    (splits : list string) (w : world) : world * option exn :=
  match splits with
  | [] => (w, None)
  | split :: rest =>
      match collect_annotations_for_split fs split with
      | Raise e => (w, Some e)
      | Ok (images, anns, categories) =>
          match images with
          | [] => combined_loop os fs rest w
          | _ :: _ =>
              let description :=
                "Plant Village Blueberry " +:+ split +:+ " split (combined)" in
              let coco_dict :=
                build_coco_dict images anns categories description in
              let output_file :=
                "combined_instances_" +:+ split +:+ ".json" in
              match json_dump os output_file coco_dict w with
              | (w, Some e) => (w, Some e)
              | (w, None) =>
                  combined_loop os fs rest (print (MsgCreated output_file) w)
              end
          end
      end
  end.

Definition empty_world : world :=
  {| out_dir_made := false; written := []; stdout := [] |}.

(** [main], after [parse_args].  [category_root_exists] is
    [category_root.exists()], [fs] is what is under it. *)
Definition main (os : output_os) (category_root_exists : bool)
    (fs : filesystem) (a : args) : world * outcome :=
  match mkdir_raises os with
  | Some e => (empty_world, Uncaught e)
  | None =>
      let w := mkdir_out_dir empty_world in
      if negb category_root_exists then
        (print MsgCategoryRootNotFound w, Exited 1)
      else
        let w := print MsgConverting w in
        let w := print MsgRoot w in
        let w := print MsgOutput w in
        let w := print (MsgSplits (arg_splits a)) w in
        match split_loop os fs (arg_splits a) w with
        | (w, Some e) => (w, Uncaught e)
        | (w, None) =>
            if arg_combined a then
              let w := print MsgGeneratingCombined w in
              match combined_loop os fs (arg_splits a) w with
              | (w, Some e) => (w, Uncaught e)
              | (w, None) => (print MsgComplete w, Returned)
              end
            else (print MsgComplete w, Returned)
        end
  end.

(** *** Notions used to state the properties of the program *)

(** The file a loop writes for a split, if it writes one: the aggregator
    returned at least one image. *)
Definition split_file (prefix suffix : string) (fs : filesystem)
    (split : string) : option (string * coco_dict) :=
  match collect_annotations_for_split fs split with
  | Ok (im :: images, anns, categories) =>
      Some (prefix +:+ split +:+ ".json",
            build_coco_dict (im :: images) anns categories
              ("Plant Village Blueberry " +:+ split +:+ suffix))
  | _ => None
  end.

(** The exception of the first split on which the aggregator raises. *)
Fixpoint first_raise (fs : filesystem) (splits : list string) : option exn :=
  match splits with
  | [] => None
  | split :: rest =>
      match collect_annotations_for_split fs split with
      | Raise e => Some e
      | Ok _ => first_raise fs rest
      end
  end.

(** The files of the splits that come before the first split on which the
    aggregator raises. *)
Fixpoint files_until_raise (prefix suffix : string) (fs : filesystem)
    (splits : list string) : list (string * coco_dict) :=
  match splits with
  | [] => []
  | split :: rest =>
      match collect_annotations_for_split fs split with
      | Raise _ => []
      | Ok _ =>
          option_list (split_file prefix suffix fs split)
          ++ files_until_raise prefix suffix fs rest
      end
  end.

(** Writing the files of a list, in order, until a write raises: the
    files as they are left, and the exception. *)
Fixpoint dump_all (os : output_os) (files : list (string * coco_dict))
  : list (string * file_state) * option exn :=
  match files with
  | [] => ([], None)
  | (name, c) :: rest =>
      match dump_result_of os name c with
      | Dumped =>
          let '(log, r) := dump_all os rest in ((name, Whole c) :: log, r)
      | OpenRaises e => ([], Some e)
      | DumpRaises e => ([(name, Truncated)], Some e)
      end
  end.

(** A file written to its end. *)
Definition whole (nc : string * coco_dict) : string * file_state :=
  (nc.1, Whole nc.2).

(** The write of the file returns. *)
Definition dumped (os : output_os) (nc : string * coco_dict) : Prop :=
  dump_result_of os nc.1 nc.2 = Dumped.

(** The images, annotations and categories of a written file. *)
Definition content (c : coco_dict)
  : list image * list annotation * list category :=
  (coco_images c, coco_annotations c, coco_categories c).

(** The row raises the exception the loop of [parse_csv_boxes] does not
    catch. *)
Definition raises_type_error (row : dict) : bool :=
  match parse_row row with
  | Raise TypeError => true
  | _ => false
  end.

(** The listing of the image directories agrees with the files that
    exist. *)
Definition listed_files_exist (fs : filesystem) : Prop :=
  ∀ d f, f ∈ images_glob fs d → is_Some (images_file fs d f).
End cli.
End Cli.

(** ** More directory trees *)
Module MoreTrees.
Import Python Coco Instance64 Trees Cli.

(** Images in both subcategories, and a split file that names none. *)
Definition fs_other_names : filesystem :=
  tree (Some ["zzz"; "  "; "yyy"])
       [("a.jpg", Ok (100, 80))] [("b.jpg", Ok (50, 50))]
       [] []
       [].

(** The tree of the example under three split names, the third without
    split file content that resolves. *)
Definition fs_three_splits : filesystem :=
  {| sets_file f :=
       if bool_decide (f = "train.txt") then Some ["a"]
       else if bool_decide (f = "val.txt") then Some ["b"]
       else if bool_decide (f = "test.txt") then Some ["none"]
       else None;
     root_glob := root_glob fs_spec_example;
     images_exists := images_exists fs_spec_example;
     images_glob := images_glob fs_spec_example;
     images_file := images_file fs_spec_example;
     csv_file := csv_file fs_spec_example |}.


Definition all_splits : args :=
  {| arg_splits := ["train"; "val"; "test"]; arg_combined := true |}.

(** An output directory that can be made and in which every write
    returns. *)
Definition os_plain : output_os :=
  {| mkdir_raises := None;
     dump_result_of _ _ := Dumped |}.

(** The same, but [json.dump] raises while it writes the file of the split
    [val]. *)
Definition os_val_cut : output_os :=
  {| mkdir_raises := None;
     dump_result_of name _ :=
       if bool_decide (name = "blueberries_instances_val.json")
       then DumpRaises ValueError else Dumped |}.

(** A row of a file without [label], [x] and [y] columns, and one of a file
    without width column. *)
Definition row_no_label : dict :=
  dict_row ["#item"; "w"; "h"] ["0"; "30"; "40"].

Definition row_no_width : dict :=
  dict_row ["#item"; "x"; "y"; "height"; "label"] ["0"; "1"; "2"; "40"; "1"].

(** The file of the split [train] of [fs_three_splits]. *)
Definition train_file : coco_dict :=
  build_coco_dict [image_record 1 "healthy" "a.jpg" 100 80]
                  [full_image_annotation 1 1 1 100 80] categories
                  "Plant Village Blueberry train split".
End MoreTrees.

(** Runs the binds of the exception monad whose first computation is a
    value or a raise. *)
Ltac run_binds :=
  cbn [mbind Python.result_bind mret Python.result_ret fst snd
       Coco.images Coco.anns Coco.image_id_counter Coco.ann_id_counter] in *.

(** ** The loop of [collect_annotations_for_split] *)
Section loop.
Import Python Coco.
Context `{Builtins}.

Lemma foldl_add_box iid dflt boxes acc aid :
  foldl (add_box iid dflt) (acc, aid) boxes =
  (acc ++ imap (λ i b, box_annotation (aid + Z.of_nat i) iid dflt b) boxes,
   aid + Z.of_nat (length boxes)).
Proof.
  revert acc aid.
  induction boxes as [|b boxes IH]; intros acc aid; simpl.
  - by rewrite app_nil_r, Z.add_0_r.
  - unfold add_box at 2; simpl. rewrite IH, <- app_assoc. simpl.
    rewrite Z.add_0_r.
    replace (aid + 1 + Z.of_nat (length boxes))
      with (aid + Z.of_nat (S (length boxes))) by lia.
    do 3 f_equal. apply imap_ext. intros i x _. simpl. f_equal. lia.
Qed.

Lemma process_stem_unresolved fs st s :
  find_image fs s subcategory_names = None → process_stem fs st s = Ok st.
Proof. intros Hf. unfold process_stem. by rewrite Hf. Qed.

Lemma process_stem_resolved fs st s subcat name st' :
  find_image fs s subcategory_names = Some (subcat, name) →
  process_stem fs st s = Ok st' →
  ∃ w h l,
    image_size fs subcat name = Ok (w, h) ∧
    block fs s subcat w h (image_id_counter st) (ann_id_counter st) l ∧
    st' = {| images := images st ++
                         [image_record (image_id_counter st) subcat name w h];
             anns := anns st ++ l;
             image_id_counter := image_id_counter st + 1;
             ann_id_counter := ann_id_counter st + Z.of_nat (length l) |}.
Proof.
  intros Hf. unfold process_stem, block. rewrite Hf.
  destruct (image_size fs subcat name) as [[w h]|e]; run_binds; [|done].
  destruct (csv_file fs subcat (s +:+ ".csv")) as [f|]; run_binds.
  - destruct (parse_csv_boxes (Some f)) as [[|b boxes]|e]; run_binds;
      [..|done].
    + intros [= <-]. eexists w, h, _. split_and!; [done|by eexists|done].
    + rewrite foldl_add_box. run_binds. intros [= <-].
      eexists w, h, _. split; [done|]. split; [by eexists|].
      by rewrite length_imap.
  - intros [= <-]. by eexists w, h, _.
Qed.

Lemma process_stems_blocks fs stems st st' :
  process_stems fs stems st = Ok st' →
  ∃ ims l,
    blocks fs stems (image_id_counter st) (ann_id_counter st) ims l ∧
    images st' = images st ++ ims ∧
    anns st' = anns st ++ l.
Proof.
  revert st. induction stems as [|s stems IH]; intros st;
    cbn [process_stems]; run_binds.
  - intros [= <-]. exists [], []. rewrite !app_nil_r. eauto using blocks.
  - destruct (process_stem fs st s) as [st1|e] eqn:Hs; run_binds; [|done].
    intros Hrest. destruct (IH _ Hrest) as (ims & l & Hb & Hi & Ha).
    destruct (find_image fs s subcategory_names) as [[subcat name]|] eqn:Hf.
    + destruct (process_stem_resolved _ _ _ _ _ _ Hf Hs)
        as (w & h & b & Hsz & Hblk & ->). run_binds.
      exists (image_record (image_id_counter st) subcat name w h :: ims),
             (b ++ l).
      rewrite Hi, Ha, <- !app_assoc. split_and!; [|done..].
      by eapply blocks_image.
    + rewrite (process_stem_unresolved _ _ _ Hf) in Hs.
      injection Hs as <-. exists ims, l. split_and!; [|done..].
      by apply blocks_skip.
Qed.

Lemma filter_all {A} (P : A → Prop) `{!∀ x, Decision (P x)} (l : list A) :
  (∀ x, x ∈ l → P x) → filter P l = l.
Proof.
  induction l as [|x l IH]; intros Hl; [done|].
  rewrite filter_cons_True by (apply Hl; left).
  f_equal. apply IH. intros y Hy. apply Hl. by right.
Qed.

Lemma filter_none {A} (P : A → Prop) `{!∀ x, Decision (P x)} (l : list A) :
  (∀ x, x ∈ l → ¬ P x) → filter P l = [].
Proof.
  induction l as [|x l IH]; intros Hl; [done|].
  rewrite filter_cons_False by (apply Hl; left).
  apply IH. intros y Hy. apply Hl. by right.
Qed.

(** *** One block *)

Lemma block_length fs s subcat w h iid aid l :
  block fs s subcat w h iid aid l → (0 < length l)%nat.
Proof.
  unfold block. destruct (csv_file fs subcat (s +:+ ".csv")).
  - intros ([|b boxes] & _ & ->); simpl; lia.
  - intros ->. simpl. lia.
Qed.

Lemma block_image_id fs s subcat w h iid aid l a :
  block fs s subcat w h iid aid l → a ∈ l → ann_image_id a = iid.
Proof.
  unfold block. destruct (csv_file fs subcat (s +:+ ".csv")).
  - intros ([|b boxes] & _ & ->).
    + by intros ->%list_elem_of_singleton.
    + intros (i & x & -> & _)%elem_of_lookup_imap. done.
  - by intros -> ->%list_elem_of_singleton.
Qed.

Lemma imap_ids {A} (f : Z → A → annotation) (aid : Z) (l : list A) :
  (∀ i x, ann_id (f i x) = i) →
  ann_id <$> imap (λ i x, f (aid + Z.of_nat i) x) l =
  (λ i, aid + Z.of_nat i) <$> seq 0 (length l).
Proof.
  intros Hf. revert aid. induction l as [|x l IH]; intros aid; [done|].
  cbn [imap length seq fmap list_fmap]. rewrite Hf. f_equal.
  rewrite <- fmap_S_seq, <- list_fmap_compose.
  etrans; [|etrans; [apply (IH (aid + 1))|]].
  - f_equal. apply imap_ext. intros i y _. unfold compose. f_equal. lia.
  - apply list_fmap_ext. intros _ i _. simpl. lia.
Qed.

Lemma block_ann_ids fs s subcat w h iid aid l :
  block fs s subcat w h iid aid l →
  ann_id <$> l = (λ i, aid + Z.of_nat i) <$> seq 0 (length l).
Proof.
  assert (Hfull : ∀ dflt,
    ann_id <$> [full_image_annotation aid iid dflt w h]
    = (λ i, aid + Z.of_nat i) <$> seq 0 1).
  { intros dflt. simpl. f_equal. lia. }
  unfold block. destruct (csv_file fs subcat (s +:+ ".csv")).
  - intros ([|b boxes] & _ & ->); [apply Hfull|].
    rewrite length_imap.
    apply (imap_ids (λ i b, box_annotation i iid _ b)). done.
  - intros ->. apply Hfull.
Qed.

(** *** A run of blocks *)

Lemma resolvable_spec fs s :
  resolvable fs s ↔ is_Some (find_image fs s subcategory_names).
Proof. unfold resolvable. apply bool_decide_spec. Qed.

Lemma resolvable_None fs s :
  find_image fs s subcategory_names = None → ¬ resolvable fs s.
Proof. rewrite resolvable_spec. intros -> [? [=]]. Qed.

Lemma resolvable_Some fs s r :
  find_image fs s subcategory_names = Some r → resolvable fs s.
Proof. rewrite resolvable_spec. intros ->. eauto. Qed.

Lemma blocks_img_ids fs stems iid aid ims l :
  blocks fs stems iid aid ims l →
  img_id <$> ims = (λ i, iid + Z.of_nat i) <$> seq 0 (length ims).
Proof.
  induction 1 as [| |s stems iid aid subcat name w h b ims l _ _ _ _ IH];
    [done..|].
  cbn [length seq fmap list_fmap img_id image_record]. f_equal; [lia|].
  rewrite IH, <- fmap_S_seq, <- list_fmap_compose.
  apply list_fmap_ext. intros _ i _. simpl. lia.
Qed.

Lemma blocks_ann_ids fs stems iid aid ims l :
  blocks fs stems iid aid ims l →
  ann_id <$> l = (λ i, aid + Z.of_nat i) <$> seq 0 (length l).
Proof.
  induction 1 as [| |s stems iid aid subcat name w h b ims l _ _ Hb _ IH];
    [done..|].
  rewrite fmap_app, length_app, seq_app, fmap_app.
  rewrite (block_ann_ids _ _ _ _ _ _ _ _ Hb), IH. f_equal.
  pose proof (fmap_add_seq (length b) 0 (length l)) as Hseq.
  rewrite Nat.add_0_r in Hseq. cbn [Nat.add].
  rewrite <- Hseq, <- list_fmap_compose.
  apply list_fmap_ext. intros _ i _. simpl. lia.
Qed.

Lemma blocks_image_id_range fs stems iid aid ims l a :
  blocks fs stems iid aid ims l → a ∈ l →
  iid ≤ ann_image_id a < iid + Z.of_nat (length ims).
Proof.
  induction 1 as [| |s stems iid aid subcat name w h b ims l _ _ Hb _ IH].
  - by intros ?%elem_of_nil.
  - done.
  - cbn [length]. intros [Ha|Ha]%elem_of_app.
    + rewrite (block_image_id _ _ _ _ _ _ _ _ _ Hb Ha). lia.
    + specialize (IH Ha). lia.
Qed.

Lemma blocks_length fs stems iid aid ims l :
  blocks fs stems iid aid ims l →
  length ims = length (filter (λ s, resolvable fs s) stems).
Proof.
  induction 1 as [|s stems iid aid ims l Hf _ IH
                  |s stems iid aid subcat name w h b ims l Hf _ _ _ IH].
  - done.
  - rewrite filter_cons_False; [done|by apply resolvable_None].
  - rewrite filter_cons_True; [simpl; by f_equal|by eapply resolvable_Some].
Qed.

(** The image and the annotations of the [i]-th resolvable base name. *)
Lemma blocks_lookup fs stems iid aid ims l i s :
  blocks fs stems iid aid ims l →
  filter (λ s, resolvable fs s) stems !! i = Some s →
  ∃ subcat name w h b aid',
    find_image fs s subcategory_names = Some (subcat, name) ∧
    image_size fs subcat name = Ok (w, h) ∧
    ims !! i = Some (image_record (iid + Z.of_nat i) subcat name w h) ∧
    block fs s subcat w h (iid + Z.of_nat i) aid' b ∧
    filter (λ a, ann_image_id a = iid + Z.of_nat i) l = b.
Proof.
  intros Hbs. revert i.
  induction Hbs as [|s0 stems iid aid ims l Hf _ IH
                    |s0 stems iid aid subcat name w h b ims l Hf Hsz Hb Hbs IH];
    intros i.
  - done.
  - rewrite filter_cons_False; [apply IH|by apply resolvable_None].
  - rewrite filter_cons_True; [|by eapply resolvable_Some].
    rewrite filter_app. destruct i as [|i]; simpl.
    + intros [= <-]. exists subcat, name, w, h, b, aid.
      rewrite Z.add_0_r. split_and!; [done..|].
      rewrite (filter_all _ b), (filter_none _ l), app_nil_r; [done|..].
      * intros a Ha. pose proof (blocks_image_id_range _ _ _ _ _ _ _ Hbs Ha).
        lia.
      * intros a Ha. by eapply block_image_id.
    + intros Hi. destruct (IH _ Hi)
        as (subcat' & name' & w' & h' & b' & aid' & ? & ? & Him & Hb' & <-).
      exists subcat', name', w', h',
        (filter (λ a, ann_image_id a = iid + 1 + Z.of_nat i) l), aid'.
      replace (iid + Z.of_nat (S i)) with (iid + 1 + Z.of_nat i) by lia.
      split_and!; [done..|].
      rewrite (filter_none _ b); [done|].
      intros a Ha. rewrite (block_image_id _ _ _ _ _ _ _ _ _ Hb Ha). lia.
Qed.

(** The output of a successful call, as a run of blocks. *)
Lemma collect_blocks fs split imgs anns cats :
  collect_annotations_for_split fs split = Ok (imgs, anns, cats) →
  blocks fs (sorted (split_stems fs split)) 1 1 imgs anns ∧
  cats = categories.
Proof.
  unfold collect_annotations_for_split.
  destruct (process_stems fs (sorted (split_stems fs split)) initial_state)
    as [st|e] eqn:Hrun; run_binds; [|done].
  intros [= <- <- <-].
  destruct (process_stems_blocks _ _ _ _ Hrun) as (ims & l & Hb & -> & ->).
  done.
Qed.

(** *** [sorted] *)

Lemma sorted_elem_of (S : gset string) x : x ∈ sorted S ↔ x ∈ S.
Proof. unfold sorted. by rewrite merge_sort_Permutation, elem_of_elements. Qed.

Lemma sorted_NoDup (S : gset string) : NoDup (sorted S).
Proof. unfold sorted. rewrite merge_sort_Permutation. apply NoDup_elements. Qed.

Lemma sorted_StronglySorted (S : gset string) :
  StronglySorted String.le (sorted S).
Proof. unfold sorted. apply StronglySorted_merge_sort; apply _. Qed.

(** Whatever the order in which the set is iterated, sorting gives the same
    list. *)
Lemma sorted_any_order (S : gset string) (l : list string) :
  l ≡ₚ elements S → merge_sort String.le l = sorted S.
Proof.
  intros Hl. apply (StronglySorted_unique String.le).
  - apply StronglySorted_merge_sort; apply _.
  - apply sorted_StronglySorted.
  - unfold sorted. by rewrite !merge_sort_Permutation.
Qed.

Lemma StronglySorted_filter {A} (R : relation A) (P : A → Prop)
    `{!∀ x, Decision (P x)} (l : list A) :
  StronglySorted R l → StronglySorted R (filter P l).
Proof.
  induction 1 as [|x l Hl IH Hx]; [constructor|].
  destruct (decide (P x)).
  - rewrite filter_cons_True by done. constructor; [done|].
    rewrite Forall_forall in Hx |- *.
    intros y [_ Hy]%list_elem_of_filter. by apply Hx.
  - by rewrite filter_cons_False.
Qed.

(** A sorted list without duplicates is determined by its elements. *)
Lemma sorted_list_unique (l1 l2 : list string) :
  StronglySorted String.le l1 → StronglySorted String.le l2 →
  NoDup l1 → NoDup l2 → (∀ x, x ∈ l1 ↔ x ∈ l2) → l1 = l2.
Proof.
  intros ?? ?? Hel. apply (StronglySorted_unique String.le); [done..|].
  by apply NoDup_Permutation.
Qed.

Lemma resolved_stems_sorted fs split :
  StronglySorted String.le (resolved_stems fs split) ∧
  NoDup (resolved_stems fs split).
Proof.
  split.
  - apply StronglySorted_filter, sorted_StronglySorted.
  - apply NoDup_filter, sorted_NoDup.
Qed.

(** *** Rows *)

Lemma float_raises v e : float v = Raise e → e = ValueError ∨ e = TypeError.
Proof.
  destruct v as [|s|z]; simpl; [naive_solver| |done].
  destruct (float_of_str s); naive_solver.
Qed.

Lemma int_raises v e : int v = Raise e → e = ValueError ∨ e = TypeError.
Proof.
  destruct v as [|s|z]; simpl; [naive_solver| |done].
  destruct (int_of_str s); naive_solver.
Qed.

(** The second test of the loop body never skips a row that passed the
    first. *)
Lemma item_key_present row :
  has_item row →
  dict_in (if dict_in "#item" row then "#item" else "item") row.
Proof.
  unfold has_item, dict_in, dict_get.
  destruct (row !! "#item") as [v|] eqn:Hi; simpl.
  - intros _. apply bool_decide_pack. rewrite Hi. eauto.
  - by rewrite negb_involutive.
Qed.

(** The rows of the [try] block, case by case. *)
Lemma parse_row_unfold row :
  parse_row row =
  if has_item row then
    x ← float (x_cell row);
    y ← float (y_cell row);
    width ← float (width_cell row);
    height ← float (height_cell row);
    label ← int (label_cell row);
    if float_ltb (float_of_int 0) width && float_ltb (float_of_int 0) height
    then mret (Some {| box_bbox := [NFloat x; NFloat y;
                                    NFloat width; NFloat height];
                       box_area := NFloat (float_mul width height);
                       box_category_id := Some label |})
    else mret None
  else mret None.
Proof.
  unfold parse_row. pose proof (item_key_present row) as Hk.
  unfold has_item in *.
  destruct (bool_decide (dict_get row "#item" PyNone = PyNone)
            && negb (dict_in "item" row)); simpl; [done|].
  simpl in Hk. apply Is_true_true in Hk; [|done]. by rewrite Hk.
Qed.

Lemma parse_row_raises row e :
  parse_row row = Raise e → e = ValueError ∨ e = TypeError.
Proof.
  rewrite parse_row_unfold. destruct (has_item row); [|done].
  destruct (float (x_cell row)) eqn:?; run_binds;
    [|intros [= <-]; eauto using float_raises].
  destruct (float (y_cell row)) eqn:?; run_binds;
    [|intros [= <-]; eauto using float_raises].
  destruct (float (width_cell row)) eqn:?; run_binds;
    [|intros [= <-]; eauto using float_raises].
  destruct (float (height_cell row)) eqn:?; run_binds;
    [|intros [= <-]; eauto using float_raises].
  destruct (int (label_cell row)) eqn:?; run_binds;
    [|intros [= <-]; eauto using int_raises].
  by destruct (_ && _).
Qed.

(** What a row must be for a box to be appended, and what the box is. *)
Lemma parse_row_accepts row b :
  parse_row row = Ok (Some b) ↔
  has_item row ∧
  ∃ x y width height label,
    float (x_cell row) = Ok x ∧ float (y_cell row) = Ok y ∧
    float (width_cell row) = Ok width ∧
    float (height_cell row) = Ok height ∧
    int (label_cell row) = Ok label ∧
    float_ltb (float_of_int 0) width = true ∧
    float_ltb (float_of_int 0) height = true ∧
    b = {| box_bbox := [NFloat x; NFloat y; NFloat width; NFloat height];
           box_area := NFloat (float_mul width height);
           box_category_id := Some label |}.
Proof.
  rewrite parse_row_unfold. split.
  - destruct (has_item row); [|done].
    destruct (float (x_cell row)) as [x|]; run_binds; [|done].
    destruct (float (y_cell row)) as [y|]; run_binds; [|done].
    destruct (float (width_cell row)) as [wd|]; run_binds; [|done].
    destruct (float (height_cell row)) as [ht|]; run_binds; [|done].
    destruct (int (label_cell row)) as [lb|]; run_binds; [|done].
    destruct (float_ltb (float_of_int 0) wd) eqn:?; [|done].
    destruct (float_ltb (float_of_int 0) ht) eqn:?; [|done].
    simpl. intros [= <-]. split; [done|]. by eexists x, y, wd, ht, lb.
  - intros (Hi & x & y & wd & ht & lb & Hx & Hy & Hw & Hh & Hl & Hwp & Hhp
            & ->).
    destruct (has_item row); [|done].
    rewrite Hx, Hy, Hw, Hh, Hl. run_binds. by rewrite Hwp, Hhp.
Qed.

Lemma try_row_spec row :
  try_row row = match parse_row row with
                | Raise TypeError => Raise TypeError
                | _ => Ok (row_box row)
                end.
Proof.
  unfold try_row, row_box. pose proof (parse_row_raises row) as Hr.
  destruct (parse_row row) as [[b|]|e]; [done..|].
  destruct (Hr e eq_refl) as [-> | ->]; done.
Qed.

(** A file whose rows raise no [TypeError] is read to the end, and gives the
    boxes of its accepted rows, in order. *)
Lemma parse_rows_complete rows boxes :
  Forall (λ row, parse_row row ≠ Raise TypeError) rows →
  parse_rows rows boxes = Ok (boxes ++ omap row_box rows).
Proof.
  intros Hrows. revert boxes.
  induction Hrows as [|row rows Hrow _ IH]; intros boxes; simpl.
  - by rewrite app_nil_r.
  - rewrite try_row_spec.
    assert (Hb : row_box row = match parse_row row with
                               | Ok (Some b) => Some b
                               | _ => None
                               end) by done.
    destruct (parse_row row) as [[b|]|[]]; try done; run_binds;
      rewrite Hb, IH; try done.
    by rewrite <- app_assoc.
Qed.

(** A [TypeError] in a row ends the loop: the rows after it are not read
    and no box is returned. *)
Lemma parse_rows_abort rows1 row rows2 boxes :
  Forall (λ row, parse_row row ≠ Raise TypeError) rows1 →
  parse_row row = Raise TypeError →
  parse_rows (rows1 ++ row :: rows2) boxes = Raise TypeError.
Proof.
  intros Hrows Hrow. revert boxes.
  induction Hrows as [|r rows1 Hr _ IH]; intros boxes; simpl.
  - by rewrite try_row_spec, Hrow.
  - rewrite try_row_spec.
    destruct (parse_row r) as [[b|]|[]] eqn:Hp; try done; run_binds;
      by rewrite IH.
Qed.

Lemma parse_rows_inv rows boxes out :
  parse_rows rows boxes = Ok out →
  Forall (λ row, parse_row row ≠ Raise TypeError) rows ∧
  out = boxes ++ omap row_box rows.
Proof.
  revert boxes. induction rows as [|row rows IH]; intros boxes; simpl.
  - intros [= <-]. by rewrite app_nil_r.
  - rewrite try_row_spec.
    assert (Hb : row_box row = match parse_row row with
                               | Ok (Some b) => Some b
                               | _ => None
                               end) by done.
    destruct (parse_row row) as [[b|]|[]] eqn:Hp; try done; run_binds;
      rewrite Hb; intros [Hrows ->]%IH;
      (split; [constructor; [by rewrite Hp|done]|]); try done.
    by rewrite <- app_assoc.
Qed.

Lemma length_row_boxes rows :
  length (omap row_box rows) = length (filter (λ r, accepted r) rows).
Proof.
  induction rows as [|row rows IH]; [done|].
  assert (Hb : row_box row = match parse_row row with
                             | Ok (Some b) => Some b
                             | _ => None
                             end) by done.
  assert (Ha : accepted row = match parse_row row with
                              | Ok (Some _) => true
                              | _ => false
                              end) by done.
  change (omap row_box (row :: rows))
    with (match row_box row with
          | Some y => y :: omap row_box rows
          | None => omap row_box rows
          end).
  rewrite filter_cons, Hb, Ha.
  destruct (parse_row row) as [[b|]|e]; cbn; by rewrite IH.
Qed.

Lemma row_box_rejected row : ¬ accepted row → row_box row = None.
Proof.
  unfold accepted, row_box. by destruct (parse_row row) as [[b|]|e].
Qed.

(** Only the accepted rows give a box. *)
Lemma omap_row_box_accepted (rows : list dict) :
  omap row_box (filter (λ r, accepted r) rows) = omap row_box rows.
Proof.
  induction rows as [|row rows IH]; [done|].
  change (omap row_box (row :: rows))
    with (match row_box row with
          | Some y => y :: omap row_box rows
          | None => omap row_box rows
          end).
  destruct (decide (accepted row)) as [Ha|Ha].
  - rewrite filter_cons_True by done.
    change (omap row_box (row :: filter (λ r, accepted r) rows))
      with (match row_box row with
            | Some y => y :: omap row_box (filter (λ r, accepted r) rows)
            | None => omap row_box (filter (λ r, accepted r) rows)
            end).
    by rewrite IH.
  - rewrite filter_cons_False by done.
    by rewrite (row_box_rejected _ Ha).
Qed.

Lemma parse_csv_boxes_origin f boxes b :
  parse_csv_boxes (Some f) = Ok boxes → b ∈ boxes →
  ∃ row, row ∈ DictReader f ∧ parse_row row = Ok (Some b).
Proof.
  unfold parse_csv_boxes. intros [_ ->]%parse_rows_inv.
  rewrite app_nil_l. intros (row & Hrow & Hb)%list_elem_of_omap.
  exists row. split; [done|]. unfold row_box in Hb.
  by destruct (parse_row row) as [[b'|]|e]; simplify_eq.
Qed.

Lemma parse_csv_boxes_length f boxes :
  parse_csv_boxes (Some f) = Ok boxes →
  length boxes = length (filter (λ r, accepted r) (DictReader f)).
Proof.
  unfold parse_csv_boxes. intros [_ ->]%parse_rows_inv.
  by rewrite app_nil_l, length_row_boxes.
Qed.

(** Where an annotation of a block comes from: it is the full-image record
    of the image, or the record of an accepted row of its CSV file. *)
Lemma block_origin fs s subcat w h iid aid l a :
  block fs s subcat w h iid aid l → a ∈ l →
  let dflt := default 1 (category_id_map !! subcat) in
  a = full_image_annotation (ann_id a) iid dflt w h ∨
  ∃ f row b,
    csv_file fs subcat (s +:+ ".csv") = Some f ∧
    row ∈ DictReader f ∧ parse_row row = Ok (Some b) ∧
    a = box_annotation (ann_id a) iid dflt b.
Proof.
  unfold block. destruct (csv_file fs subcat (s +:+ ".csv")) as [f|].
  - intros ([|b boxes] & Hp & ->).
    + intros ->%list_elem_of_singleton. by left.
    + intros (i & x & -> & Hx)%elem_of_lookup_imap. right.
      destruct (parse_csv_boxes_origin _ _ x Hp) as (row & ? & ?).
      { by eapply list_elem_of_lookup_2. }
      by exists f, row, x.
  - intros -> ->%list_elem_of_singleton. by left.
Qed.

Lemma blocks_origin fs stems iid aid ims l a :
  blocks fs stems iid aid ims l → a ∈ l →
  ∃ s subcat name w h,
    s ∈ stems ∧
    find_image fs s subcategory_names = Some (subcat, name) ∧
    image_size fs subcat name = Ok (w, h) ∧
    let dflt := default 1 (category_id_map !! subcat) in
    a = full_image_annotation (ann_id a) (ann_image_id a) dflt w h ∨
    ∃ f row b,
      csv_file fs subcat (s +:+ ".csv") = Some f ∧
      row ∈ DictReader f ∧ parse_row row = Ok (Some b) ∧
      a = box_annotation (ann_id a) (ann_image_id a) dflt b.
Proof.
  induction 1 as [|s stems iid aid ims l Hf _ IH
                  |s stems iid aid subcat name w h b ims l Hf Hsz Hb _ IH].
  - by intros ?%elem_of_nil.
  - intros Ha. destruct (IH Ha) as (s' & subcat & name & w & h & ? & ?).
    exists s', subcat, name, w, h. split; [by right|done].
  - intros [Ha|Ha]%elem_of_app.
    + exists s, subcat, name, w, h. split_and!; [by left|done..|].
      rewrite (block_image_id _ _ _ _ _ _ _ _ _ Hb Ha).
      by eapply block_origin.
    + destruct (IH Ha) as (s' & subcat' & name' & w' & h' & ? & ?).
      exists s', subcat', name', w', h'. split; [by right|done].
Qed.

Lemma ids_from_one {A} (f : A → Z) (l : list A) :
  f <$> l = (λ i, 1 + Z.of_nat i) <$> seq 0 (length l) →
  f <$> l = Z.of_nat <$> seq 1 (length l).
Proof.
  intros ->. rewrite <- fmap_S_seq, <- list_fmap_compose.
  apply list_fmap_ext. intros _ i _. simpl. lia.
Qed.

(** *** The source of an annotation *)

Lemma no_box_no_accepted_row f :
  parse_csv_boxes (Some f) = Ok [] →
  filter (λ r, accepted r) (DictReader f) = [].
Proof.
  intros Hlen%parse_csv_boxes_length. symmetry in Hlen.
  by apply nil_length_inv in Hlen.
Qed.

(** An annotation of a block is the full-image record of the image, and
    then the CSV file of the image has no accepted row, or it is the record
    of an accepted row of the CSV file of the image. *)
Lemma block_source fs s subcat w h iid aid l a :
  block fs s subcat w h iid aid l → a ∈ l →
  let dflt := default 1 (category_id_map !! subcat) in
  (a = full_image_annotation (ann_id a) iid dflt w h ∧
   ∀ f, csv_file fs subcat (s +:+ ".csv") = Some f →
        filter (λ r, accepted r) (DictReader f) = []) ∨
  (∃ f row b,
    csv_file fs subcat (s +:+ ".csv") = Some f ∧
    row ∈ DictReader f ∧ parse_row row = Ok (Some b) ∧
    a = box_annotation (ann_id a) iid dflt b).
Proof.
  unfold block. destruct (csv_file fs subcat (s +:+ ".csv")) as [f|].
  - intros ([|b boxes] & Hp & ->).
    + intros ->%list_elem_of_singleton. left. split; [done|].
      intros f' [= <-]. by apply no_box_no_accepted_row.
    + intros (i & x & -> & Hx)%elem_of_lookup_imap. right.
      destruct (parse_csv_boxes_origin _ _ x Hp) as (row & ? & ?).
      { by eapply list_elem_of_lookup_2. }
      by exists f, row, x.
  - intros -> ->%list_elem_of_singleton. by left.
Qed.

(** Every annotation of a run belongs to the image of one resolvable base
    name, whose block it is in. *)
Lemma blocks_source fs stems iid aid ims l a :
  blocks fs stems iid aid ims l → a ∈ l →
  ∃ i s subcat name w h,
    filter (λ s, resolvable fs s) stems !! i = Some s ∧
    find_image fs s subcategory_names = Some (subcat, name) ∧
    image_size fs subcat name = Ok (w, h) ∧
    ims !! i = Some (image_record (iid + Z.of_nat i) subcat name w h) ∧
    ann_image_id a = iid + Z.of_nat i ∧
    let dflt := default 1 (category_id_map !! subcat) in
    (a = full_image_annotation (ann_id a) (iid + Z.of_nat i) dflt w h ∧
     ∀ f, csv_file fs subcat (s +:+ ".csv") = Some f →
          filter (λ r, accepted r) (DictReader f) = []) ∨
    (∃ f row b,
      csv_file fs subcat (s +:+ ".csv") = Some f ∧
      row ∈ DictReader f ∧ parse_row row = Ok (Some b) ∧
      a = box_annotation (ann_id a) (iid + Z.of_nat i) dflt b).
Proof.
  intros Hb Ha.
  pose proof (blocks_image_id_range _ _ _ _ _ _ _ Hb Ha) as Hrange.
  pose proof (blocks_length _ _ _ _ _ _ Hb) as Hlen.
  set (i := Z.to_nat (ann_image_id a - iid)).
  assert (Hi : (i < length (filter (λ s, resolvable fs s) stems))%nat)
    by lia.
  destruct (lookup_lt_is_Some_2 _ _ Hi) as [s Hs].
  destruct (blocks_lookup _ _ _ _ _ _ _ _ Hb Hs)
    as (subcat & name & w & h & b & aid' & Hf & Hsz & Him & Hblk & Hmine).
  assert (Hid : ann_image_id a = iid + Z.of_nat i) by lia.
  exists i, s, subcat, name, w, h. split_and!; [done..|].
  apply (block_source _ _ _ _ _ _ _ _ _ Hblk).
  rewrite <- Hmine. by apply list_elem_of_filter.
Qed.
End loop.

(** ** Properties of the aggregator *)
Section properties.
Import Python Coco.
Context `{Builtins}.

Lemma find_ext_name fs d s exts f :
  find_ext fs d s exts = Some f →
  ∃ ext, ext ∈ exts ∧ f = s +:+ ext ∧ is_Some (images_file fs d f).
Proof.
  induction exts as [|ext exts IH]; simpl; [done|].
  case_bool_decide as Hex.
  - intros [= <-]. exists ext. split; [by left|done].
  - intros (ext' & ? & ? & ?)%IH. exists ext'. split; [by right|done].
Qed.

Lemma find_image_subcat fs s subcats d f :
  find_image fs s subcats = Some (d, f) →
  d ∈ subcats ∧ ∃ ext, ext ∈ image_exts ∧ f = s +:+ ext
                       ∧ is_Some (images_file fs d f).
Proof.
  induction subcats as [|d' subcats IH]; cbn [find_image]; [done|].
  destruct (find_ext fs d' s image_exts) as [f'|] eqn:Hext.
  - intros [= <- <-]. split; [by left|]. by eapply find_ext_name.
  - intros [? ?]%IH. split; [by right|done].
Qed.

(** The default category id of the two subcategories. *)
Lemma default_category_id fs s d f :
  find_image fs s subcategory_names = Some (d, f) →
  (d = "healthy" ∧ default 1 (category_id_map !! d) = 1) ∨
  (d = "background" ∧ default 1 (category_id_map !! d) = 2).
Proof.
  intros [Hd _]%find_image_subcat. unfold subcategory_names in Hd.
  apply elem_of_cons in Hd as [->|Hd]; [by left|].
  apply list_elem_of_singleton in Hd as ->. by right.
Qed.

(** *** The file system queries behind the loop *)

Lemma find_ext_ext fs1 fs2 d s exts :
  (∀ d f, images_file fs1 d f = images_file fs2 d f) →
  find_ext fs1 d s exts = find_ext fs2 d s exts.
Proof.
  intros Himg. induction exts as [|ext exts IH]; simpl; [done|].
  by rewrite Himg, IH.
Qed.

Lemma find_image_ext fs1 fs2 s subcats :
  (∀ d f, images_file fs1 d f = images_file fs2 d f) →
  find_image fs1 s subcats = find_image fs2 s subcats.
Proof.
  intros Himg. induction subcats as [|d subcats IH]; cbn [find_image]; [done|].
  by rewrite (find_ext_ext fs1 fs2), IH.
Qed.

(** The body of the main loop reads the tree through [images_file] and
    [csv_file] only. *)
Lemma process_stem_ext fs1 fs2 st s :
  (∀ d f, images_file fs1 d f = images_file fs2 d f) →
  (∀ d f, csv_file fs1 d f = csv_file fs2 d f) →
  process_stem fs1 st s = process_stem fs2 st s.
Proof.
  intros Himg Hcsv. unfold process_stem, image_size.
  rewrite (find_image_ext fs1 fs2) by done.
  destruct (find_image fs2 s subcategory_names) as [[d f]|]; [|done].
  by rewrite Himg, Hcsv.
Qed.

Lemma process_stems_ext fs1 fs2 stems st :
  (∀ d f, images_file fs1 d f = images_file fs2 d f) →
  (∀ d f, csv_file fs1 d f = csv_file fs2 d f) →
  process_stems fs1 stems st = process_stems fs2 stems st.
Proof.
  intros Himg Hcsv. revert st.
  induction stems as [|s stems IH]; intros st; cbn [process_stems]; [done|].
  rewrite (process_stem_ext fs1 fs2) by done.
  destruct (process_stem fs2 st s); run_binds; [apply IH|done].
Qed.

(** The base names without image leave the state of the loop as it is. *)
Lemma process_stems_resolved_only fs stems st :
  process_stems fs stems st =
  process_stems fs (filter (λ s, resolvable fs s) stems) st.
Proof.
  revert st. induction stems as [|s stems IH]; intros st; [done|].
  destruct (find_image fs s subcategory_names) as [r|] eqn:Hf.
  - rewrite filter_cons_True by (by eapply resolvable_Some).
    cbn [process_stems].
    destruct (process_stem fs st s); run_binds; [apply IH|done].
  - rewrite filter_cons_False by (by apply resolvable_None).
    cbn [process_stems]. rewrite process_stem_unresolved by done.
    run_binds. apply IH.
Qed.

(** The search of the two nested loops is a search for the first existing
    candidate. *)
Lemma find_ext_first fs d s exts :
  find_ext fs d s exts =
  (λ r, r.2.2) <$>
    list_find (λ c, is_Some (images_file fs c.1 c.2))
              ((λ ext, (d, s +:+ ext)) <$> exts).
Proof.
  induction exts as [|ext exts IH]; [done|].
  cbn [find_ext fmap list_fmap list_find fst snd].
  destruct (decide (is_Some (images_file fs d (s +:+ ext)))) as [Hd|Hd].
  - by rewrite bool_decide_eq_true_2.
  - rewrite bool_decide_eq_false_2 by done.
    rewrite IH. by destruct (list_find _ _) as [[??]|].
Qed.

Lemma find_image_first fs s subcats :
  find_image fs s subcats =
  snd <$>
    list_find (λ c, is_Some (images_file fs c.1 c.2))
              (d ← subcats; (λ ext, (d, s +:+ ext)) <$> image_exts).
Proof.
  induction subcats as [|d subcats IH]; [done|].
  cbn [find_image mbind list_bind]. rewrite find_ext_first.
  destruct (list_find _ ((λ ext, (d, s +:+ ext)) <$> image_exts))
    as [[k [d' f]]|] eqn:Hfind.
  - erewrite list_find_app_l by done.
    apply list_find_Some in Hfind as [Hk _].
    apply list_lookup_fmap_Some in Hk as (ext & [= -> ->] & _). done.
  - rewrite list_find_app_r by done. rewrite IH.
    by destruct (list_find _ _) as [[??]|].
Qed.

(** *** The set of base names *)

Lemma elem_of_glob_stems fs d ext x :
  x ∈ glob_stems fs d ext ↔
  ∃ f, f ∈ images_glob fs d ∧ ends_with ext f ∧ x = stem f.
Proof.
  unfold glob_stems. rewrite elem_of_list_to_set, list_elem_of_fmap.
  setoid_rewrite list_elem_of_filter. naive_solver.
Qed.

Lemma elem_of_scan_subcat fs acc d is_dir x :
  x ∈ scan_subcat fs acc (d, is_dir) ↔
  x ∈ acc ∨
  (is_dir = true ∧ d ≠ "sets" ∧ images_exists fs d ∧
   ∃ f, f ∈ images_glob fs d ∧ globbed f ∧ x = stem f).
Proof.
  unfold scan_subcat, globbed.
  destruct is_dir; cbn [andb]; [|naive_solver].
  case_bool_decide as Hd; [|naive_solver].
  destruct (images_exists fs d); [|naive_solver].
  rewrite !elem_of_union, !elem_of_glob_stems. naive_solver.
Qed.

Lemma elem_of_scan fs l acc x :
  x ∈ foldl (scan_subcat fs) acc l ↔
  x ∈ acc ∨
  ∃ d f, (d, true) ∈ l ∧ d ≠ "sets" ∧ images_exists fs d ∧
         f ∈ images_glob fs d ∧ globbed f ∧ x = stem f.
Proof.
  revert acc. induction l as [|[d is_dir] l IH]; intros acc; cbn [foldl].
  - split; [by left|]. intros [?|(d & f & ?%elem_of_nil & _)]; done.
  - rewrite IH, elem_of_scan_subcat. clear IH.
    setoid_rewrite elem_of_cons. split.
    + intros [[?|(-> & ? & ? & f & ?)]|(d' & f & ?)];
        [by left|right; exists d, f|right; exists d', f]; naive_solver.
    + intros [?|(d' & f & [[= -> <-]|?] & ?)];
        [by do 2 left|left; right|right; exists d', f]; naive_solver.
Qed.

Lemma elem_of_fallback_stems fs x :
  x ∈ fallback_stems fs ↔
  ∃ d f, (d, true) ∈ root_glob fs ∧ d ≠ "sets" ∧ images_exists fs d ∧
         f ∈ images_glob fs d ∧ globbed f ∧ x = stem f.
Proof.
  unfold fallback_stems. rewrite elem_of_scan. set_solver.
Qed.

Lemma globbed_is_image_name f : globbed f → is_image_name f.
Proof.
  intros Hg. apply bool_decide_pack. unfold image_exts.
  destruct Hg as [?|[?|?]].
  - by apply Exists_cons_hd.
  - by apply Exists_cons_tl, Exists_cons_hd.
  - by do 2 apply Exists_cons_tl; apply Exists_cons_hd.
Qed.

Lemma split_stems_same fs1 fs2 split :
  same_contents fs1 fs2 → split_stems fs1 split = split_stems fs2 split.
Proof.
  intros [Hsets Hroot Hex Hglob _ _]. unfold split_stems.
  rewrite Hsets. case_bool_decide; [|done].
  apply set_eq. intros x. rewrite !elem_of_fallback_stems.
  split; intros (d & f & Hd & ? & ? & Hf & ?); exists d, f.
  - rewrite <- Hroot, <- Hex, <- Hglob. done.
  - rewrite Hroot, Hex, Hglob. done.
Qed.

(** *** Rows without [None] *)

Lemma zip_fill_full fieldnames row :
  (length fieldnames ≤ length row)%nat →
  Forall (λ kv, kv.2 ≠ PyNone) (zip_fill fieldnames row).
Proof.
  revert row. induction fieldnames as [|k ks IH]; intros [|c cs]; simpl;
    intros Hlen; try by constructor.
  - lia.
  - constructor; [done|]. apply IH. lia.
Qed.

Lemma dict_of_items_values kvs k v :
  Forall (λ kv, kv.2 ≠ PyNone) kvs →
  dict_of_items kvs !! k = Some v → v ≠ PyNone.
Proof.
  unfold dict_of_items.
  assert (Hgen : ∀ d : dict,
    (∀ k v, d !! k = Some v → v ≠ PyNone) →
    Forall (λ kv, kv.2 ≠ PyNone) kvs →
    ∀ k v, foldl (λ d kv, <[kv.1 := kv.2]> d) d kvs !! k = Some v →
           v ≠ PyNone).
  { induction kvs as [|[k' v'] kvs IH]; intros d Hd Hkvs; [done|].
    apply Forall_cons in Hkvs as [Hv' Hkvs]. simpl. apply IH; [|done].
    intros k0 v0. destruct (decide (k' = k0)) as [->|Hne].
    - rewrite lookup_insert_eq. by intros [= <-].
    - rewrite lookup_insert_ne by done. apply Hd. }
  intros Hkvs. apply Hgen; [|done]. intros k0 v0. by rewrite lookup_empty.
Qed.

Lemma dict_get_not_None (row : dict) k dflt :
  (∀ k v, row !! k = Some v → v ≠ PyNone) →
  dflt ≠ PyNone → dict_get row k dflt ≠ PyNone.
Proof.
  intros Hrow Hd. unfold dict_get.
  destruct (row !! k) as [v|] eqn:Hk; simpl; eauto.
Qed.

Lemma float_no_TypeError v : v ≠ PyNone → float v ≠ Raise TypeError.
Proof.
  destruct v as [|s|z]; simpl; [done| |done].
  by destruct (float_of_str s).
Qed.

Lemma int_no_TypeError v : v ≠ PyNone → int v ≠ Raise TypeError.
Proof.
  destruct v as [|s|z]; simpl; [done| |done].
  by destruct (int_of_str s).
Qed.

(** A row without [None] raises no [TypeError]. *)
Lemma parse_row_no_TypeError (row : dict) :
  (∀ k v, row !! k = Some v → v ≠ PyNone) →
  parse_row row ≠ Raise TypeError.
Proof.
  intros Hrow. rewrite parse_row_unfold. destruct (has_item row); [|done].
  assert (Hcell : ∀ k z, dict_get row k (PyInt z) ≠ PyNone).
  { intros k z. by apply dict_get_not_None. }
  pose proof (float_no_TypeError (x_cell row) (Hcell _ _)).
  pose proof (float_no_TypeError (y_cell row) (Hcell _ _)).
  assert (float (width_cell row) ≠ Raise TypeError).
  { apply float_no_TypeError. unfold width_cell.
    do 2 (apply dict_get_not_None; [done|]). apply Hcell. }
  assert (float (height_cell row) ≠ Raise TypeError).
  { apply float_no_TypeError. unfold height_cell.
    do 2 (apply dict_get_not_None; [done|]). apply Hcell. }
  pose proof (int_no_TypeError (label_cell row) (Hcell _ _)).
  destruct (float (x_cell row)) as [x|[]]; run_binds; try done.
  destruct (float (y_cell row)) as [y|[]]; run_binds; try done.
  destruct (float (width_cell row)) as [wd|[]]; run_binds; try done.
  destruct (float (height_cell row)) as [ht|[]]; run_binds; try done.
  destruct (int (label_cell row)) as [lb|[]]; run_binds; try done.
  by destruct (_ && _).
Qed.

(** C7: every annotation record of a split output refers, by its
    [image_id], to an image record of the same output. *)
Theorem C7_image_id_references_image fs split imgs anns cats a :
  collect_annotations_for_split fs split = Ok (imgs, anns, cats) →
  a ∈ anns →
  ∃ im, im ∈ imgs ∧ img_id im = ann_image_id a.
Proof.
  intros [Hb _]%collect_blocks Ha.
  pose proof (blocks_image_id_range _ _ _ _ _ _ _ Hb Ha) as Hrange.
  pose proof (blocks_img_ids _ _ _ _ _ _ Hb) as Hids.
  set (k := Z.to_nat (ann_image_id a - 1)).
  assert (Hk : (k < length imgs)%nat) by lia.
  destruct (lookup_lt_is_Some_2 imgs k Hk) as [im Him].
  exists im. split; [by eapply list_elem_of_lookup_2|].
  apply (f_equal (λ l, l !! k)) in Hids.
  rewrite !list_lookup_fmap, Him, lookup_seq_lt in Hids by done.
  simpl in Hids. injection Hids as ->. lia.
Qed.

(** C8: the area of every annotation record is the product of the third
    and the fourth component of its bounding box. *)
Theorem C8_area_is_width_times_height fs split imgs anns cats a :
  collect_annotations_for_split fs split = Ok (imgs, anns, cats) →
  a ∈ anns →
  ∃ width height,
    ann_bbox a !! 2%nat = Some width ∧
    ann_bbox a !! 3%nat = Some height ∧
    ann_area a = num_mul width height.
Proof.
  intros [Hb _]%collect_blocks Ha.
  destruct (blocks_origin _ _ _ _ _ _ _ Hb Ha)
    as (s & d & f & w & h & _ & _ & _ & [->|(c & row & b & _ & _ & Hrow & ->)]).
  - by exists (NInt w), (NInt h).
  - apply parse_row_accepts in Hrow
      as (_ & x & y & wd & ht & lb & _ & _ & _ & _ & _ & _ & _ & ->).
    by exists (NFloat wd), (NFloat ht).
Qed.

(** C3: the image identifiers of a split are 1..N in the increasing order
    of the resolvable base names, the annotation identifiers are 1..M in
    the order of emission; N is the number of resolvable base names. *)
Theorem C3_identifiers_dense fs split imgs anns cats :
  collect_annotations_for_split fs split = Ok (imgs, anns, cats) →
  length imgs = length (resolved_stems fs split) ∧
  img_id <$> imgs = Z.of_nat <$> seq 1 (length imgs) ∧
  ann_id <$> anns = Z.of_nat <$> seq 1 (length anns) ∧
  NoDup (img_id <$> imgs) ∧ NoDup (ann_id <$> anns) ∧
  StronglySorted String.le (resolved_stems fs split) ∧
  NoDup (resolved_stems fs split) ∧
  ∀ i s, resolved_stems fs split !! i = Some s →
    ∃ d f w h,
      find_image fs s subcategory_names = Some (d, f) ∧
      imgs !! i = Some (image_record (Z.of_nat (S i)) d f w h).
Proof.
  intros [Hb _]%collect_blocks.
  pose proof (ids_from_one _ _ (blocks_img_ids _ _ _ _ _ _ Hb)) as Hi.
  pose proof (ids_from_one _ _ (blocks_ann_ids _ _ _ _ _ _ Hb)) as Ha.
  assert (Hnd : ∀ n, NoDup (Z.of_nat <$> seq 1 n)).
  { intros n. apply NoDup_fmap; [apply _|apply NoDup_seq]. }
  split_and!; [by eapply blocks_length|done|done|rewrite Hi; apply Hnd
              |rewrite Ha; apply Hnd|apply resolved_stems_sorted..|].
  intros i s Hs.
  destruct (blocks_lookup _ _ _ _ _ _ _ _ Hb Hs)
    as (d & f & w & h & b & aid & Hf & _ & Him & _).
  exists d, f, w, h. split; [done|].
  by replace (Z.of_nat (S i)) with (1 + Z.of_nat i) by lia.
Qed.

(** C1: the annotations of a resolved image are one record per accepted
    row of its CSV file when the file exists and has an accepted row, and
    otherwise the one full-image record with the bounding box
    [0, 0, width, height], the area [width * height] and the default
    category id of the subcategory in which the image was found. *)
Theorem C1_annotations_per_image fs split imgs anns cats i s :
  collect_annotations_for_split fs split = Ok (imgs, anns, cats) →
  resolved_stems fs split !! i = Some s →
  ∃ d f w h,
    find_image fs s subcategory_names = Some (d, f) ∧
    image_size fs d f = Ok (w, h) ∧
    imgs !! i = Some (image_record (Z.of_nat (S i)) d f w h) ∧
    let mine := filter (λ a, ann_image_id a = Z.of_nat (S i)) anns in
    let dflt := default 1 (category_id_map !! d) in
    let full_image := ∃ a,
      mine = [a] ∧
      ann_bbox a = [NInt 0; NInt 0; NInt w; NInt h] ∧
      ann_area a = NInt (w * h) ∧
      ann_category_id a = dflt in
    match csv_file fs d (s +:+ ".csv") with
    | Some c =>
        let rows := filter (λ r, accepted r) (DictReader c) in
        match rows with
        | _ :: _ =>
            length mine = length rows ∧
            (λ a, (ann_bbox a, ann_area a)) <$> mine =
            (λ b, (box_bbox b, box_area b)) <$> omap row_box rows
        | [] => full_image
        end
    | None => full_image
    end.
Proof.
  intros [Hb _]%collect_blocks Hs.
  destruct (blocks_lookup _ _ _ _ _ _ _ _ Hb Hs)
    as (d & f & w & h & b & aid & Hf & Hsz & Him & Hblk & Hmine).
  exists d, f, w, h.
  replace (1 + Z.of_nat i) with (Z.of_nat (S i)) in * by lia.
  split_and!; [done..|]. cbn zeta. rewrite Hmine. clear Hmine.
  unfold block in Hblk.
  destruct (csv_file fs d (s +:+ ".csv")) as [c|]; [|by eexists].
  destruct Hblk as (boxes & Hp & ->).
  pose proof (parse_csv_boxes_length _ _ Hp) as Hlen.
  unfold parse_csv_boxes in Hp. apply parse_rows_inv in Hp as [_ ->].
  rewrite app_nil_l in *.
  destruct (filter (λ r, accepted r) (DictReader c)) as [|r rows] eqn:Hrows.
  - destruct (omap row_box (DictReader c)); [by eexists|done].
  - rewrite <- Hrows.
    pose proof (omap_row_box_accepted (DictReader c)) as Hacc.
    rewrite Hacc.
    destruct (omap row_box (DictReader c)) as [|b0 boxes] eqn:Hboxes;
      [done|].
    rewrite length_imap. split; [by rewrite Hrows|].
    rewrite fmap_imap. rewrite <- imap_const. by apply imap_ext.
Qed.

(** C9: the candidates of a base name are tried in a fixed order, healthy
    before background and the extensions in the order of the list, and the
    first that exists is its image.  In the output of a call that returns,
    the [i]-th resolvable base name, in increasing order, has the image
    record with the identifier [i + 1], made of the subcategory, the file
    and the size of that first candidate, and its annotations are those the
    loop appends from the CSV file of that subcategory, with the default
    category id of that subcategory.  A base name without image gives
    nothing: there are as many images as resolvable names and every
    annotation belongs to one of them.  And when such names are added to
    the split file, in any order, a call that returns gives the same
    images, annotations and categories. *)
Theorem C9_resolution_order fs split g (U : gset string)
    imgs anns cats imgs' anns' cats' :
  split_stems (with_sets_file g fs) split = split_stems fs split ∪ U →
  (∀ u, u ∈ U → find_image fs u subcategory_names = None) →
  collect_annotations_for_split fs split = Ok (imgs, anns, cats) →
  collect_annotations_for_split (with_sets_file g fs) split
    = Ok (imgs', anns', cats') →
  (∀ s, candidates s =
        [("healthy", s +:+ ".png"); ("healthy", s +:+ ".jpg");
         ("healthy", s +:+ ".JPG"); ("healthy", s +:+ ".PNG");
         ("healthy", s +:+ ".jpeg"); ("healthy", s +:+ ".JPEG");
         ("background", s +:+ ".png"); ("background", s +:+ ".jpg");
         ("background", s +:+ ".JPG"); ("background", s +:+ ".PNG");
         ("background", s +:+ ".jpeg"); ("background", s +:+ ".JPEG")]) ∧
  (∀ s, find_image fs s subcategory_names =
        snd <$> list_find (λ c, is_Some (images_file fs c.1 c.2))
                          (candidates s)) ∧
  (∀ i s, resolved_stems fs split !! i = Some s →
     ∃ k d f w h aid,
       list_find (λ c, is_Some (images_file fs c.1 c.2)) (candidates s)
         = Some (k, (d, f)) ∧
       image_size fs d f = Ok (w, h) ∧
       imgs !! i = Some (image_record (Z.of_nat (S i)) d f w h) ∧
       block fs s d w h (Z.of_nat (S i)) aid
             (filter (λ a, ann_image_id a = Z.of_nat (S i)) anns)) ∧
  (∀ s, s ∈ resolved_stems fs split ↔
        s ∈ split_stems fs split ∧
        is_Some (find_image fs s subcategory_names)) ∧
  StronglySorted String.le (resolved_stems fs split) ∧
  length imgs = length (resolved_stems fs split) ∧
  (∀ a, a ∈ anns →
        ∃ i s, resolved_stems fs split !! i = Some s ∧
               ann_image_id a = Z.of_nat (S i)) ∧
  resolved_stems (with_sets_file g fs) split = resolved_stems fs split ∧
  imgs' = imgs ∧ anns' = anns ∧ cats' = cats.
Proof.
  intros HU Hnone Hrun Hrun'.
  assert (Hr : ∀ l : list string,
             filter (λ s, resolvable (with_sets_file g fs) s) l
             = filter (λ s, resolvable fs s) l).
  { intros l. apply list_filter_iff. intros s. unfold resolvable.
    by rewrite (find_image_ext (with_sets_file g fs) fs). }
  assert (Hres : resolved_stems (with_sets_file g fs) split
                 = resolved_stems fs split).
  { unfold resolved_stems. rewrite HU, Hr.
    apply sorted_list_unique.
    - apply StronglySorted_filter, sorted_StronglySorted.
    - apply StronglySorted_filter, sorted_StronglySorted.
    - apply NoDup_filter, sorted_NoDup.
    - apply NoDup_filter, sorted_NoDup.
    - intros x. rewrite !list_elem_of_filter, !sorted_elem_of, elem_of_union.
      split; [|naive_solver]. intros [Hx [?|Hu]]; [done|].
      apply Hnone in Hu. by apply resolvable_None in Hu. }
  assert (Hsame : collect_annotations_for_split (with_sets_file g fs) split
                  = collect_annotations_for_split fs split).
  { unfold collect_annotations_for_split.
    rewrite (process_stems_ext (with_sets_file g fs) fs) by done.
    rewrite (process_stems_resolved_only fs (sorted (split_stems fs split))).
    rewrite (process_stems_resolved_only fs
               (sorted (split_stems (with_sets_file g fs) split))).
    unfold resolved_stems in Hres. rewrite Hr in Hres. by rewrite Hres. }
  rewrite Hsame, Hrun in Hrun'. injection Hrun' as <- <- <-.
  destruct (collect_blocks _ _ _ _ _ Hrun) as [Hb _].
  split; [done|]. split; [intros s; apply find_image_first|].
  split; [|split; [|split; [|split; [|split; [|done]]]]].
  - intros i s Hs.
    destruct (blocks_lookup _ _ _ _ _ _ _ _ Hb Hs)
      as (d & f & w & h & b & aid & Hf & Hsz & Him & Hblk & Hmine).
    rewrite find_image_first in Hf.
    change (d ← subcategory_names; (λ ext, (d, s +:+ ext)) <$> image_exts)
      with (candidates s) in Hf.
    destruct (list_find (λ c, is_Some (images_file fs c.1 c.2)) (candidates s))
      as [[k [d' f']]|]; [|done].
    injection Hf as -> ->. exists k, d, f, w, h, aid.
    replace (Z.of_nat (S i)) with (1 + Z.of_nat i) by lia.
    by rewrite Hmine.
  - intros s. unfold resolved_stems.
    rewrite list_elem_of_filter, sorted_elem_of, resolvable_spec.
    naive_solver.
  - apply resolved_stems_sorted.
  - by eapply blocks_length.
  - intros a Ha.
    destruct (blocks_source _ _ _ _ _ _ _ Hb Ha)
      as (i & s & d & f & w & h & Hs & _ & _ & _ & Hid & _).
    exists i, s. split; [done|lia].
Qed.

(** C10: two observations of the same tree, whatever the order in which
    the directories are listed, give the same images, annotations and
    categories; the categories are the fixed list of two. *)
Theorem C10_deterministic fs1 fs2 split :
  same_contents fs1 fs2 →
  collect_annotations_for_split fs1 split =
  collect_annotations_for_split fs2 split ∧
  (∀ l, l ≡ₚ elements (split_stems fs1 split) →
        merge_sort String.le l = sorted (split_stems fs2 split)) ∧
  ∀ imgs anns cats,
    collect_annotations_for_split fs1 split = Ok (imgs, anns, cats) →
    cats = categories ∧ length cats = 2%nat.
Proof.
  intros Hsame. pose proof (split_stems_same _ _ split Hsame) as Hstems.
  destruct Hsame as [_ _ _ _ Himg Hcsv]. split_and!.
  - unfold collect_annotations_for_split.
    by rewrite Hstems, (process_stems_ext fs1 fs2).
  - intros l Hl. rewrite <- Hstems. by apply sorted_any_order.
  - by intros imgs anns cats [_ ->]%collect_blocks.
Qed.

Lemma read_split_list_blank (file : option (list string)) :
  file = None ∨
  (∃ lines, file = Some lines ∧ Forall (λ l, str_strip l = "") lines) →
  read_split_list file = [].
Proof.
  intros [->|(lines & -> & Hblank)]; [done|]. unfold read_split_list.
  apply filter_none. intros x (l & -> & Hl)%list_elem_of_fmap.
  rewrite Forall_forall in Hblank. rewrite (Hblank _ Hl).
  intros Hne. by apply Hne.
Qed.

(** C5: without split file, or with one that has only blank lines, the
    aggregator runs on the base names found by scanning the image
    directory of every directory of the category root other than [sets]:
    the names of all its [*.png], [*.jpg] and [*.JPG] files, and only names
    of image files found there. *)
Theorem C5_fallback_scan fs split :
  sets_file fs (split +:+ ".txt") = None ∨
  (∃ lines, sets_file fs (split +:+ ".txt") = Some lines ∧
            Forall (λ l, str_strip l = "") lines) →
  split_stems fs split = fallback_stems fs ∧
  collect_annotations_for_split fs split =
    (st ← process_stems fs (sorted (fallback_stems fs)) initial_state;
     mret (images st, anns st, categories)) ∧
  (∀ d f, (d, true) ∈ root_glob fs → d ≠ "sets" → images_exists fs d →
          f ∈ images_glob fs d → globbed f →
          stem f ∈ split_stems fs split) ∧
  (∀ x, x ∈ split_stems fs split →
        ∃ d f, (d, true) ∈ root_glob fs ∧ d ≠ "sets" ∧ images_exists fs d ∧
               f ∈ images_glob fs d ∧ is_image_name f ∧ x = stem f).
Proof.
  intros Hfile%read_split_list_blank.
  assert (Hs : split_stems fs split = fallback_stems fs).
  { unfold split_stems. rewrite Hfile. done. }
  unfold collect_annotations_for_split. rewrite Hs. split_and!; [done..| |].
  - intros d f ?????. apply elem_of_fallback_stems. by exists d, f.
  - intros x (d & f & ? & ? & ? & ? & ?%globbed_is_image_name & ?)
             %elem_of_fallback_stems.
    by exists d, f.
Qed.

(** C6: the bounding box of every annotation record has a positive width
    and a positive height, when the images have.  The record belongs to the
    image of a resolvable base name and is of one of two kinds.  Either it
    is the full-image record of that image, whose CSV file, if any, has no
    accepted row: its box is [0, 0, width, height] of the image, and is
    valid.  Or it is the record of an accepted row of the CSV file of that
    image: its box holds the four numbers that [float] reads in the [x],
    [y], width and height cells of that row, whatever the sign of [x] and
    [y]. *)
Theorem C6_bbox_extent_positive fs split imgs anns cats a :
  (∀ d f w h, images_file fs d f = Some (Ok (w, h)) → 0 < w ∧ 0 < h) →
  collect_annotations_for_split fs split = Ok (imgs, anns, cats) →
  a ∈ anns →
  ∃ i s d f w h x y width height,
    resolved_stems fs split !! i = Some s ∧
    find_image fs s subcategory_names = Some (d, f) ∧
    imgs !! i = Some (image_record (Z.of_nat (S i)) d f w h) ∧
    ann_image_id a = Z.of_nat (S i) ∧
    ann_bbox a = [x; y; width; height] ∧
    num_pos width ∧ num_pos height ∧
    let dflt := default 1 (category_id_map !! d) in
    ((a = full_image_annotation (ann_id a) (Z.of_nat (S i)) dflt w h ∧
      (∀ c, csv_file fs d (s +:+ ".csv") = Some c →
            filter (λ r, accepted r) (DictReader c) = []) ∧
      x = NInt 0 ∧ y = NInt 0 ∧ width = NInt w ∧ height = NInt h ∧
      bbox_valid a) ∨
     (∃ c row b fx fy fw fh,
        csv_file fs d (s +:+ ".csv") = Some c ∧
        row ∈ DictReader c ∧
        parse_row row = Ok (Some b) ∧
        a = box_annotation (ann_id a) (Z.of_nat (S i)) dflt b ∧
        float (x_cell row) = Ok fx ∧ float (y_cell row) = Ok fy ∧
        float (width_cell row) = Ok fw ∧
        float (height_cell row) = Ok fh ∧
        x = NFloat fx ∧ y = NFloat fy ∧
        width = NFloat fw ∧ height = NFloat fh)).
Proof.
  intros Hdims Hrun Ha. destruct (collect_blocks _ _ _ _ _ Hrun) as [Hb _].
  destruct (blocks_source _ _ _ _ _ _ _ Hb Ha)
    as (i & s & d & f & w & h & Hs & Hf & Hsz & Him & Hid & Hsrc).
  replace (1 + Z.of_nat i) with (Z.of_nat (S i)) in * by lia.
  exists i, s, d, f, w, h. cbn zeta in Hsrc.
  destruct Hsrc as [[Hfull Hnone]|(c & row & b & Hc & Hrow & Hp & Hbox)].
  - unfold image_size in Hsz.
    destruct (images_file fs d f) as [r|] eqn:Himg; [|done]. subst r.
    destruct (Hdims _ _ _ _ Himg) as [Hw Hh].
    assert (Hbb : ann_bbox a = [NInt 0; NInt 0; NInt w; NInt h])
      by (by rewrite Hfull).
    exists (NInt 0), (NInt 0), (NInt w), (NInt h).
    assert (Hpw : num_pos (NInt w)) by (by apply bool_decide_pack).
    assert (Hph : num_pos (NInt h)) by (by apply bool_decide_pack).
    split_and!; [done..|]. left. split_and!; [done..|].
    unfold bbox_valid. rewrite Hbb. simpl.
    by rewrite !bool_decide_eq_true_2 by lia.
  - pose proof Hp as Hacc. apply parse_row_accepts in Hacc
      as (_ & x & y & wd & ht & lb & Hx & Hy & Hwd & Hht & _ & Hwp & Hhp & Hb').
    assert (Hbb : ann_bbox a = [NFloat x; NFloat y; NFloat wd; NFloat ht])
      by (by rewrite Hbox, Hb').
    exists (NFloat x), (NFloat y), (NFloat wd), (NFloat ht).
    split_and!; [done..|by simpl; rewrite Hwp|by simpl; rewrite Hhp|].
    right. by exists c, row, b, x, y, wd, ht.
Qed.
End properties.

(** ** The properties on explicit trees *)
Section runs.
Import Python Coco Instance64 Trees.

(** The run of the example of the specification. *)
Lemma run_spec_example :
  collect_annotations_for_split fs_spec_example "train" =
  Ok (example_images, example_annotations, categories).
Proof. reflexivity. Qed.

Lemma lookup_file_Some {A} (l : list (string * A)) f a :
  lookup_file l f = Some a → (f, a) ∈ l.
Proof.
  induction l as [|[g b] l IH]; simpl; [done|].
  case_bool_decide as Hg.
  - intros [= ->]. subst g. by left.
  - intros ?%IH. by right.
Qed.

Lemma tree_images_file train hl bl hc bc extra d f r :
  images_file (tree train hl bl hc bc extra) d f = Some r →
  ∃ l, (d, l) ∈ [("healthy", hl); ("background", bl)] ++ extra ∧ (f, r) ∈ l.
Proof.
  unfold tree. cbn [images_file].
  destruct (lookup_file _ d) as [l|] eqn:Hd; cbn [mbind option_bind];
    [|done].
  intros Hf%lookup_file_Some. apply lookup_file_Some in Hd. by exists l.
Qed.

Lemma spec_example_dims_positive d f w h :
  images_file fs_spec_example d f = Some (Ok (w, h)) → 0 < w ∧ 0 < h.
Proof.
  intros (l & Hl & Hf)%tree_images_file.
  repeat (apply elem_of_cons in Hl as [[= -> ->]|Hl]);
    [..|by apply elem_of_nil in Hl];
    repeat (apply elem_of_cons in Hf as [[= -> -> ->]|Hf]);
    try (by apply elem_of_nil in Hf); lia.
Qed.

Lemma relisted_same fs : same_contents fs (relisted fs).
Proof.
  split; simpl; try done.
  - apply Permutation_sym, reverse_Permutation.
  - intros d. apply Permutation_sym, reverse_Permutation.
Qed.

Lemma C1_annotations_per_image_witness :
  ∃ d f w h,
    find_image fs_spec_example "b" subcategory_names = Some (d, f) ∧
    image_size fs_spec_example d f = Ok (w, h) ∧
    example_images !! 1%nat = Some (image_record 2 d f w h) ∧
    let mine := filter (λ a, ann_image_id a = 2) example_annotations in
    let dflt := default 1 (category_id_map !! d) in
    let full_image := ∃ a,
      mine = [a] ∧
      ann_bbox a = [NInt 0; NInt 0; NInt w; NInt h] ∧
      ann_area a = NInt (w * h) ∧
      ann_category_id a = dflt in
    match csv_file fs_spec_example d ("b" +:+ ".csv") with
    | Some c =>
        let rows := filter (λ r, accepted r) (DictReader c) in
        match rows with
        | _ :: _ =>
            length mine = length rows ∧
            (λ a, (ann_bbox a, ann_area a)) <$> mine =
            (λ b, (box_bbox b, box_area b)) <$> omap row_box rows
        | [] => full_image
        end
    | None => full_image
    end.
Proof.
  exact (C1_annotations_per_image fs_spec_example "train" _ _ _ 1%nat "b"
           run_spec_example eq_refl).
Defined.

Lemma C3_identifiers_dense_witness :
  length example_images = length (resolved_stems fs_spec_example "train") ∧
  img_id <$> example_images = Z.of_nat <$> seq 1 (length example_images) ∧
  ann_id <$> example_annotations
    = Z.of_nat <$> seq 1 (length example_annotations) ∧
  NoDup (img_id <$> example_images) ∧
  NoDup (ann_id <$> example_annotations) ∧
  StronglySorted String.le (resolved_stems fs_spec_example "train") ∧
  NoDup (resolved_stems fs_spec_example "train") ∧
  ∀ i s, resolved_stems fs_spec_example "train" !! i = Some s →
    ∃ d f w h,
      find_image fs_spec_example s subcategory_names = Some (d, f) ∧
      example_images !! i = Some (image_record (Z.of_nat (S i)) d f w h).
Proof.
  exact (C3_identifiers_dense fs_spec_example "train" _ _ _ run_spec_example).
Defined.

Lemma C7_image_id_references_image_witness :
  ∃ im, im ∈ example_images ∧ img_id im = 2.
Proof.
  refine (C7_image_id_references_image fs_spec_example "train" _ _ _
            (box_annotation 2 2 2 example_box) run_spec_example _).
  right. left.
Defined.

Lemma C8_area_is_width_times_height_witness :
  ∃ width height,
    box_bbox example_box !! 2%nat = Some width ∧
    box_bbox example_box !! 3%nat = Some height ∧
    box_area example_box = num_mul width height.
Proof.
  refine (C8_area_is_width_times_height fs_spec_example "train" _ _ _
            (box_annotation 2 2 2 example_box) run_spec_example _).
  right. left.
Defined.

Lemma run_negative_x :
  collect_annotations_for_split fs_negative_x "train" =
  Ok ([image_record 1 "healthy" "a.jpg" 100 80],
      [box_annotation 1 1 1 negative_x_box], categories).
Proof. reflexivity. Qed.

Lemma negative_x_dims_positive d f w h :
  images_file fs_negative_x d f = Some (Ok (w, h)) → 0 < w ∧ 0 < h.
Proof.
  intros (l & Hl & Hf)%tree_images_file.
  repeat (apply elem_of_cons in Hl as [[= -> ->]|Hl]);
    [..|by apply elem_of_nil in Hl];
    repeat (apply elem_of_cons in Hf as [[= -> -> ->]|Hf]);
    try (by apply elem_of_nil in Hf); lia.
Qed.

Lemma C6_bbox_extent_positive_witness :
  ∃ i s d f w h x y width height,
    resolved_stems fs_negative_x "train" !! i = Some s ∧
    find_image fs_negative_x s subcategory_names = Some (d, f) ∧
    [image_record 1 "healthy" "a.jpg" 100 80] !! i
      = Some (image_record (Z.of_nat (S i)) d f w h) ∧
    ann_image_id (box_annotation 1 1 1 negative_x_box) = Z.of_nat (S i) ∧
    ann_bbox (box_annotation 1 1 1 negative_x_box) = [x; y; width; height] ∧
    num_pos width ∧ num_pos height ∧
    let dflt := default 1 (category_id_map !! d) in
    ((box_annotation 1 1 1 negative_x_box
        = full_image_annotation
            (ann_id (box_annotation 1 1 1 negative_x_box))
            (Z.of_nat (S i)) dflt w h ∧
      (∀ c, csv_file fs_negative_x d (s +:+ ".csv") = Some c →
            filter (λ r, accepted r) (DictReader c) = []) ∧
      x = NInt 0 ∧ y = NInt 0 ∧ width = NInt w ∧ height = NInt h ∧
      bbox_valid (box_annotation 1 1 1 negative_x_box)) ∨
     (∃ c row b fx fy fw fh,
        csv_file fs_negative_x d (s +:+ ".csv") = Some c ∧
        row ∈ DictReader c ∧
        parse_row row = Ok (Some b) ∧
        box_annotation 1 1 1 negative_x_box
          = box_annotation (ann_id (box_annotation 1 1 1 negative_x_box))
                           (Z.of_nat (S i)) dflt b ∧
        float (x_cell row) = Ok fx ∧ float (y_cell row) = Ok fy ∧
        float (width_cell row) = Ok fw ∧
        float (height_cell row) = Ok fh ∧
        x = NFloat fx ∧ y = NFloat fy ∧
        width = NFloat fw ∧ height = NFloat fh)).
Proof.
  refine (C6_bbox_extent_positive fs_negative_x "train" _ _ _
            (box_annotation 1 1 1 negative_x_box)
            negative_x_dims_positive run_negative_x _).
  left.
Defined.

Lemma missing_names_added :
  split_stems (with_sets_file train_with_missing fs_spec_example) "train" =
  split_stems fs_spec_example "train" ∪ {["zzz"; "missing"]}.
Proof. reflexivity. Qed.

Lemma missing_names_unresolved u :
  u ∈ ({["zzz"; "missing"]} : gset string) →
  find_image fs_spec_example u subcategory_names = None.
Proof.
  intros [Hu%elem_of_singleton|Hu%elem_of_singleton]%elem_of_union;
    subst u; reflexivity.
Qed.

(** The run of the example with the two names without image in its split
    file. *)
Lemma run_spec_example_missing :
  collect_annotations_for_split
    (with_sets_file train_with_missing fs_spec_example) "train" =
  Ok (example_images, example_annotations, categories).
Proof. reflexivity. Qed.

Lemma C9_resolution_order_witness :
  (∀ s, candidates s =
        [("healthy", s +:+ ".png"); ("healthy", s +:+ ".jpg");
         ("healthy", s +:+ ".JPG"); ("healthy", s +:+ ".PNG");
         ("healthy", s +:+ ".jpeg"); ("healthy", s +:+ ".JPEG");
         ("background", s +:+ ".png"); ("background", s +:+ ".jpg");
         ("background", s +:+ ".JPG"); ("background", s +:+ ".PNG");
         ("background", s +:+ ".jpeg"); ("background", s +:+ ".JPEG")]) ∧
  (∀ s, find_image fs_spec_example s subcategory_names =
        snd <$> list_find (λ c, is_Some (images_file fs_spec_example c.1 c.2))
                          (candidates s)) ∧
  (∀ i s, resolved_stems fs_spec_example "train" !! i = Some s →
     ∃ k d f w h aid,
       list_find (λ c, is_Some (images_file fs_spec_example c.1 c.2))
                 (candidates s)
         = Some (k, (d, f)) ∧
       image_size fs_spec_example d f = Ok (w, h) ∧
       example_images !! i = Some (image_record (Z.of_nat (S i)) d f w h) ∧
       block fs_spec_example s d w h (Z.of_nat (S i)) aid
             (filter (λ a, ann_image_id a = Z.of_nat (S i))
                     example_annotations)) ∧
  (∀ s, s ∈ resolved_stems fs_spec_example "train" ↔
        s ∈ split_stems fs_spec_example "train" ∧
        is_Some (find_image fs_spec_example s subcategory_names)) ∧
  StronglySorted String.le (resolved_stems fs_spec_example "train") ∧
  length example_images = length (resolved_stems fs_spec_example "train") ∧
  (∀ a, a ∈ example_annotations →
        ∃ i s, resolved_stems fs_spec_example "train" !! i = Some s ∧
               ann_image_id a = Z.of_nat (S i)) ∧
  resolved_stems (with_sets_file train_with_missing fs_spec_example) "train"
    = resolved_stems fs_spec_example "train" ∧
  example_images = example_images ∧
  example_annotations = example_annotations ∧
  categories = categories.
Proof.
  exact (C9_resolution_order fs_spec_example "train" train_with_missing
           {["zzz"; "missing"]} _ _ _ _ _ _
           missing_names_added missing_names_unresolved
           run_spec_example run_spec_example_missing).
Defined.

Lemma C10_deterministic_witness :
  collect_annotations_for_split fs_scan "train" =
  collect_annotations_for_split (relisted fs_scan) "train" ∧
  (∀ l, l ≡ₚ elements (split_stems fs_scan "train") →
        merge_sort String.le l = sorted (split_stems (relisted fs_scan) "train")) ∧
  ∀ imgs anns cats,
    collect_annotations_for_split fs_scan "train" = Ok (imgs, anns, cats) →
    cats = categories ∧ length cats = 2%nat.
Proof.
  exact (C10_deterministic fs_scan (relisted fs_scan) "train"
           (relisted_same fs_scan)).
Defined.

Lemma C5_fallback_scan_witness :
  split_stems fs_fallback "train" = fallback_stems fs_fallback ∧
  collect_annotations_for_split fs_fallback "train" =
    (st ← process_stems fs_fallback (sorted (fallback_stems fs_fallback))
                        initial_state;
     mret (images st, anns st, categories)) ∧
  (∀ d f, (d, true) ∈ root_glob fs_fallback → d ≠ "sets" →
          images_exists fs_fallback d →
          f ∈ images_glob fs_fallback d → globbed f →
          stem f ∈ split_stems fs_fallback "train") ∧
  (∀ x, x ∈ split_stems fs_fallback "train" →
        ∃ d f, (d, true) ∈ root_glob fs_fallback ∧ d ≠ "sets" ∧
               images_exists fs_fallback d ∧
               f ∈ images_glob fs_fallback d ∧ is_image_name f ∧
               x = stem f).
Proof.
  exact (C5_fallback_scan fs_fallback "train" (or_introl eq_refl)).
Defined.

(** C5, as stated, fails: without split file, the base names are not those
    of the images of the known subcategories: [other/images/z.png] gives a name although [other]
    is not a subcategory, and [healthy/images/a.jpeg] gives none. *)
Lemma C5_fallback_counterexample :
  split_stems fs_fallback "train" = {["z"]} ∧
  known_subcategory_stems fs_fallback = {["a"]} ∧
  split_stems fs_fallback "train" ≠ known_subcategory_stems fs_fallback.
Proof.
  assert (H1 : split_stems fs_fallback "train" = {["z"]}) by reflexivity.
  assert (H2 : known_subcategory_stems fs_fallback = {["a"]}) by reflexivity.
  split_and!; [done..|]. rewrite H1, H2. intros Heq.
  assert (Hz : "z" ∈ ({["a"]} : gset string)) by (rewrite <- Heq; set_solver).
  by apply elem_of_singleton in Hz.
Qed.

(** C6, as stated, fails: a row with [x = -5] gives an annotation whose
    bounding box starts left of the image. *)
Lemma C6_bbox_counterexample :
  ∃ a,
    collect_annotations_for_split fs_negative_x "train" =
      Ok ([image_record 1 "healthy" "a.jpg" 100 80], [a], categories) ∧
    ann_bbox a = [NFloat (-5)%float; NFloat 0%float;
                  NFloat 10%float; NFloat 10%float] ∧
    bbox_valid a = false.
Proof. eexists. split_and!; reflexivity. Qed.

(** C2: on a background image whose CSV file has no [label] column, the
    annotation of a row gets the category id 1, and not the default id 2 of
    the background subcategory. *)
Theorem C2_unlabelled_row_on_background :
  ∃ a,
    collect_annotations_for_split fs_no_label "train" =
      Ok ([image_record 1 "background" "b.jpg" 50 50], [a], categories) ∧
    ann_bbox a = [NFloat 0%float; NFloat 0%float;
                  NFloat 50%float; NFloat 50%float] ∧
    ann_category_id a = 1 ∧
    default 1 (category_id_map !! "background") = 2.
Proof. eexists. split_and!; reflexivity. Qed.

(** C4: a row shorter than the header raises a [TypeError] that the loop
    does not catch: the file is not read further and the aggregator stops.
    A row with a value that is not a number is left out, and the rows after
    it are read. *)
Theorem C4_short_row_aborts :
  parse_csv_boxes (Some csv_short_row) = Raise TypeError ∧
  collect_annotations_for_split fs_short_row "train" = Raise TypeError ∧
  parse_csv_boxes (Some csv_bad_width) =
    Ok [ {| box_bbox := [NFloat 0%float; NFloat 0%float;
                         NFloat 50%float; NFloat 50%float];
            box_area := NFloat 2500%float;
            box_category_id := Some 1 |};
         {| box_bbox := [NFloat 5%float; NFloat 5%float;
                         NFloat 20%float; NFloat 10%float];
            box_area := NFloat 200%float;
            box_category_id := Some 2 |} ].
Proof. split_and!; reflexivity. Qed.
End runs.

(** ** Paths, rows and files *)
Section rows_and_paths.
Import Python Coco Cli.
Context `{Builtins}.

Lemma length_append (s t : string) :
  String.length (s +:+ t) = (String.length s + String.length t)%nat.
Proof. induction s as [|c s IH]; simpl; [done|]. by rewrite IH. Qed.

Lemma substring_prefix (s t : string) :
  String.substring 0 (String.length s) (s +:+ t) = s.
Proof.
  induction s as [|c s IH]; simpl; [by destruct t|]. by rewrite IH.
Qed.

Lemma substring_whole (t : string) :
  String.substring 0 (String.length t) t = t.
Proof. induction t as [|c t IH]; simpl; [done|]. by rewrite IH. Qed.

Lemma substring_suffix (s t : string) :
  String.substring (String.length s) (String.length t) (s +:+ t) = t.
Proof. induction s as [|c s IH]; simpl; [apply substring_whole|done]. Qed.

Lemma rfind_dot_append (s t : string) j :
  rfind_dot t = Some j →
  rfind_dot (s +:+ t) = Some (String.length s + j)%nat.
Proof.
  intros Ht. induction s as [|c s IH]; simpl; [done|]. by rewrite IH.
Qed.

(** The stem of a name with an extension whose only dot is the first
    character. *)
Lemma stem_append (c : ascii) (s ext : string) :
  rfind_dot ext = Some 0%nat → (1 < String.length ext)%nat →
  stem (String c s +:+ ext) = String c s.
Proof.
  intros Hdot Hlen. unfold stem.
  rewrite (rfind_dot_append _ _ _ Hdot), Nat.add_0_r, length_append.
  rewrite bool_decide_eq_true_2 by (simpl; lia).
  apply substring_prefix.
Qed.

Lemma ends_with_append (s ext : string) : ends_with ext (s +:+ ext).
Proof.
  unfold ends_with. rewrite length_append.
  rewrite bool_decide_eq_true_2 by lia.
  replace (String.length s + String.length ext - String.length ext)%nat
    with (String.length s) by lia.
  rewrite substring_suffix. by rewrite bool_decide_eq_true_2.
Qed.

Lemma stem_undoes_extension_lemma :
  Forall (λ ext, ∀ c s,
            stem (String c s +:+ ext) = String c s ∧
            ends_with ext (String c s +:+ ext) ∧
            stem ext = ext)
         image_exts.
Proof.
  unfold image_exts.
  repeat (apply Forall_cons; split;
          [intros c s; split_and!;
             [by apply stem_append; [|simpl; lia]
             |apply ends_with_append|done]|]).
  apply Forall_nil_2.
Qed.

(** X1: for each of the six recognised extensions, the stem of a non-empty
    name followed by the extension is the name, and the pattern of the
    extension matches the file; a file named by the extension alone keeps
    its whole name as stem. *)
Theorem stem_undoes_extension :
  Forall (λ ext, ∀ c s,
            stem (String c s +:+ ext) = String c s ∧
            ends_with ext (String c s +:+ ext) ∧
            stem ext = ext)
         image_exts.
Proof. exact stem_undoes_extension_lemma. Qed.

(** *** [csv.DictReader] *)

Lemma zip_fill_keys fieldnames row : (zip_fill fieldnames row).*1 = fieldnames.
Proof.
  revert row. induction fieldnames as [|k ks IH]; intros [|c cs]; simpl;
    by rewrite ?IH.
Qed.

Lemma dict_of_items_is_Some kvs k :
  is_Some (dict_of_items kvs !! k) ↔ k ∈ kvs.*1.
Proof.
  unfold dict_of_items.
  assert (Hgen : ∀ d : dict,
    is_Some (foldl (λ d kv, <[kv.1 := kv.2]> d) d kvs !! k)
    ↔ is_Some (d !! k) ∨ k ∈ kvs.*1).
  { induction kvs as [|[k' v'] kvs IH]; intros d; simpl.
    - rewrite elem_of_nil. tauto.
    - rewrite IH, elem_of_cons. destruct (decide (k' = k)) as [->|Hne].
      + rewrite lookup_insert_eq. split; [eauto|]. intros _. left. eauto.
      + rewrite lookup_insert_ne by done. naive_solver. }
  rewrite Hgen, lookup_empty. split; [|by right].
  by intros [[? [=]]|?].
Qed.

(** Every row of a file has the columns of the header, and no other. *)
Lemma dict_row_is_Some fieldnames row k :
  is_Some (dict_row fieldnames row !! k) ↔ k ∈ fieldnames.
Proof.
  unfold dict_row. by rewrite dict_of_items_is_Some, zip_fill_keys.
Qed.

(** X2: for a row that is not shorter than the header, the test that skips
    comment lines depends on the header alone: the row passes when the
    header has a column [#item] or [item], whatever the row holds. *)
Theorem item_test_reads_header fieldnames row :
  (length fieldnames ≤ length row)%nat →
  has_item (dict_row fieldnames row)
  = bool_decide ("#item" ∈ fieldnames ∨ "item" ∈ fieldnames).
Proof.
  intros Hlen. unfold has_item, dict_in, dict_get.
  assert (Hval : ∀ k v, dict_row fieldnames row !! k = Some v → v ≠ PyNone).
  { intros k v. by apply dict_of_items_values, zip_fill_full. }
  pose proof (dict_row_is_Some fieldnames row "#item") as Hi.
  pose proof (dict_row_is_Some fieldnames row "item") as Hj.
  destruct (dict_row fieldnames row !! "#item") as [v|] eqn:Hv; simpl.
  - rewrite bool_decide_eq_false_2 by (by apply Hval in Hv).
    simpl. symmetry. apply bool_decide_eq_true_2. left. apply Hi. eauto.
  - rewrite negb_involutive. apply bool_decide_ext.
    rewrite Hj. split; [by right|]. intros [Hin|?]; [|done].
    apply Hi in Hin as [? [=]].
Qed.

(** *** [parse_csv_boxes] *)

Lemma parse_rows_closed rows boxes :
  parse_rows rows boxes =
  if existsb raises_type_error rows then Raise TypeError
  else Ok (boxes ++ omap row_box rows).
Proof.
  revert boxes. induction rows as [|row rows IH]; intros boxes.
  - simpl. by rewrite app_nil_r.
  - cbn [parse_rows existsb]. rewrite try_row_spec.
    assert (Hb : row_box row = match parse_row row with
                               | Ok (Some b) => Some b
                               | _ => None
                               end) by done.
    change (omap row_box (row :: rows))
      with (match row_box row with
            | Some y => y :: omap row_box rows
            | None => omap row_box rows
            end).
    unfold raises_type_error at 1.
    destruct (parse_row row) as [[b|]|[]] eqn:Hp; run_binds; try done;
      rewrite Hb, IH; cbn [orb]; destruct (existsb _ rows); try done.
    by rewrite <- app_assoc.
Qed.

Lemma raises_type_error_spec row :
  raises_type_error row = true ↔ parse_row row = Raise TypeError.
Proof.
  unfold raises_type_error.
  destruct (parse_row row) as [?|[]]; naive_solver.
Qed.

(** X3: what [parse_csv_boxes] makes of the rows of a file.  When it
    returns, no row of the file raises [TypeError] and the boxes are those
    of the accepted rows, in the order of the file, with nothing for the
    other rows.  When a row raises [TypeError], wherever it is in the file,
    the call raises [TypeError]: the boxes of the rows before it are
    lost. *)
Theorem parse_csv_boxes_result f :
  (∀ boxes, parse_csv_boxes (Some f) = Ok boxes →
     Forall (λ row, parse_row row ≠ Raise TypeError) (DictReader f) ∧
     boxes = omap row_box (DictReader f)) ∧
  (∀ row, row ∈ DictReader f → parse_row row = Raise TypeError →
     parse_csv_boxes (Some f) = Raise TypeError).
Proof.
  unfold parse_csv_boxes. split.
  - intros boxes [Hrows ->]%parse_rows_inv. by rewrite app_nil_l.
  - intros row Hin Hrow. rewrite parse_rows_closed.
    rewrite (proj2 (existsb_exists _ _)); [done|].
    exists row. split; [by apply list_elem_of_In|].
    by apply raises_type_error_spec.
Qed.

(** X5: a row that is not shorter than the header never ends the loop of
    [parse_csv_boxes]: whatever its cells hold, the body of the [try]
    appends the box of the row or leaves the row. *)
Theorem full_row_is_never_fatal fieldnames row :
  (length fieldnames ≤ length row)%nat →
  try_row (dict_row fieldnames row)
  = Ok (row_box (dict_row fieldnames row)).
Proof.
  intros Hlen. rewrite try_row_spec.
  pose proof (parse_row_no_TypeError (dict_row fieldnames row)) as Hno.
  destruct (parse_row (dict_row fieldnames row)) as [r|[]]; try done.
  exfalso. apply Hno; [|done].
  intros k v. by apply dict_of_items_values, zip_fill_full.
Qed.

(** X4: what a missing column means.  Without [label] column an accepted
    row is labelled 1; without [x] or [y] column the box starts at 0.0 on
    that axis; without any of [width], [w], [dx], or any of [height], [h],
    [dy], no box is made, zero not being greater than zero. *)
Theorem missing_columns_defaults (row : dict) :
  float_ltb (float_of_int 0) (float_of_int 0) = false →
  (row !! "label" = None → ∀ b, parse_row row = Ok (Some b) →
     box_category_id b = Some 1) ∧
  (row !! "x" = None → ∀ b, parse_row row = Ok (Some b) →
     box_bbox b !! 0%nat = Some (NFloat (float_of_int 0))) ∧
  (row !! "y" = None → ∀ b, parse_row row = Ok (Some b) →
     box_bbox b !! 1%nat = Some (NFloat (float_of_int 0))) ∧
  (row !! "width" = None → row !! "w" = None → row !! "dx" = None →
     row_box row = None) ∧
  (row !! "height" = None → row !! "h" = None → row !! "dy" = None →
     row_box row = None).
Proof.
  intros Hzero. split_and!.
  - intros Hl b (_ & x & y & wd & ht & lb & _ & _ & _ & _ & Hlb & _ & _ & ->)
                %parse_row_accepts.
    unfold label_cell, dict_get in Hlb. rewrite Hl in Hlb.
    simpl in Hlb. by injection Hlb as <-.
  - intros Hx b (_ & x & y & wd & ht & lb & Hfx & _ & _ & _ & _ & _ & _ & ->)
                %parse_row_accepts.
    unfold x_cell, dict_get in Hfx. rewrite Hx in Hfx.
    simpl in Hfx. by injection Hfx as <-.
  - intros Hy b (_ & x & y & wd & ht & lb & _ & Hfy & _ & _ & _ & _ & _ & ->)
                %parse_row_accepts.
    unfold y_cell, dict_get in Hfy. rewrite Hy in Hfy.
    simpl in Hfy. by injection Hfy as <-.
  - intros H1 H2 H3. unfold row_box.
    destruct (parse_row row) as [[b|]|e] eqn:Hp; [|done..].
    apply parse_row_accepts in Hp
      as (_ & x & y & wd & ht & lb & _ & _ & Hw & _ & _ & Hpos & _ & _).
    unfold width_cell, dict_get in Hw. rewrite H1, H2, H3 in Hw.
    simpl in Hw. injection Hw as <-. congruence.
  - intros H1 H2 H3. unfold row_box.
    destruct (parse_row row) as [[b|]|e] eqn:Hp; [|done..].
    apply parse_row_accepts in Hp
      as (_ & x & y & wd & ht & lb & _ & _ & _ & Hh & _ & _ & Hpos & _).
    unfold height_cell, dict_get in Hh. rewrite H1, H2, H3 in Hh.
    simpl in Hh. injection Hh as <-. congruence.
Qed.
End rows_and_paths.

(** ** More on the aggregator *)
Section aggregator.
Import Python Coco Cli.
Context `{Builtins}.

(** X6: one row that raises [TypeError], in the CSV file of one image of
    the split, and the call for the split raises: no image and no
    annotation of the split is returned. *)
Theorem type_error_row_fails_the_split fs split s d f c row :
  s ∈ split_stems fs split →
  find_image fs s subcategory_names = Some (d, f) →
  csv_file fs d (s +:+ ".csv") = Some c →
  row ∈ DictReader c →
  parse_row row = Raise TypeError →
  ∃ e, collect_annotations_for_split fs split = Raise e.
Proof.
  intros Hs Hf Hc Hrow Hraise.
  destruct (collect_annotations_for_split fs split)
    as [[[imgs anns] cats]|e] eqn:Hrun; [exfalso|by exists e].
  destruct (collect_blocks _ _ _ _ _ Hrun) as [Hb _].
  assert (Hres : s ∈ filter (λ s, resolvable fs s)
                            (sorted (split_stems fs split))).
  { apply list_elem_of_filter.
    split; [by eapply resolvable_Some|by apply sorted_elem_of]. }
  apply list_elem_of_lookup in Hres as [i Hi].
  destruct (blocks_lookup _ _ _ _ _ _ _ _ Hb Hi)
    as (d' & f' & w & h & b & aid & Hf' & _ & _ & Hblk & _).
  rewrite Hf in Hf'. injection Hf' as <- <-.
  unfold block in Hblk. rewrite Hc in Hblk.
  destruct Hblk as (boxes & Hp & _).
  unfold parse_csv_boxes in Hp. apply parse_rows_inv in Hp as [Hrows _].
  rewrite Forall_forall in Hrows. by apply (Hrows row).
Qed.

Lemma blocks_every_image fs stems iid aid ims l :
  blocks fs stems iid aid ims l →
  (length ims ≤ length l)%nat ∧
  ∀ im, im ∈ ims → ∃ a, a ∈ l ∧ ann_image_id a = img_id im.
Proof.
  induction 1 as [| |s stems iid aid subcat name w h b ims l _ _ Hb _ IH].
  - split; [done|]. by intros im ?%elem_of_nil.
  - done.
  - destruct IH as [IHlen IHim].
    pose proof (block_length _ _ _ _ _ _ _ _ Hb) as Hlen.
    split; [rewrite length_app; simpl; lia|].
    intros im [->|Him]%elem_of_cons.
    + destruct b as [|a b]; [simpl in Hlen; lia|].
      exists a. split; [by left|].
      apply (block_image_id _ _ _ _ _ _ _ _ _ Hb). by left.
    + destruct (IHim _ Him) as (a & ? & ?). exists a.
      split; [apply elem_of_app; by right|done].
Qed.

(** X7: every image record has at least one annotation record that refers
    to it, so there are at least as many annotations as images. *)
Theorem every_image_is_annotated fs split imgs anns cats :
  collect_annotations_for_split fs split = Ok (imgs, anns, cats) →
  (length imgs ≤ length anns)%nat ∧
  ∀ im, im ∈ imgs → ∃ a, a ∈ anns ∧ ann_image_id a = img_id im.
Proof. intros [Hb _]%collect_blocks. by eapply blocks_every_image. Qed.

Lemma blocks_grouped fs stems iid aid ims l :
  blocks fs stems iid aid ims l →
  StronglySorted Z.le (ann_image_id <$> l).
Proof.
  induction 1 as [| |s stems iid aid subcat name w h b ims l _ _ Hb Hbs IH];
    [constructor|done|].
  rewrite fmap_app. apply StronglySorted_app. split_and!; [| |done].
  - intros x y (a & -> & Ha)%list_elem_of_fmap (a' & -> & Ha')%list_elem_of_fmap.
    rewrite (block_image_id _ _ _ _ _ _ _ _ _ Hb Ha).
    pose proof (blocks_image_id_range _ _ _ _ _ _ _ Hbs Ha'). lia.
  - assert (Hconst : ∀ x, x ∈ ann_image_id <$> b → x = iid).
    { intros x (a & -> & Ha)%list_elem_of_fmap.
      by eapply block_image_id. }
    clear Hb. induction (ann_image_id <$> b) as [|x xs IHxs]; [constructor|].
    constructor.
    + apply IHxs. intros y Hy. apply Hconst. by right.
    + apply Forall_forall. intros y Hy.
      rewrite (Hconst x) by (by left).
      rewrite (Hconst y) by (by right). done.
Qed.

(** X8: the annotation records come image by image, in the order of the
    image records: their [image_id]s never decrease. *)
Theorem annotations_grouped_by_image fs split imgs anns cats :
  collect_annotations_for_split fs split = Ok (imgs, anns, cats) →
  StronglySorted Z.le (ann_image_id <$> anns).
Proof. intros [Hb _]%collect_blocks. by eapply blocks_grouped. Qed.

(** X9: a split file with at least one name switches the directory scan
    off; when none of its names has an image, a call that returns gives no
    image and no annotation, whatever images the directories hold. *)
Theorem split_of_missing_names_is_empty fs split imgs anns cats :
  read_split_list (sets_file fs (split +:+ ".txt")) ≠ [] →
  (∀ x, x ∈ read_split_list (sets_file fs (split +:+ ".txt")) →
        find_image fs x subcategory_names = None) →
  collect_annotations_for_split fs split = Ok (imgs, anns, cats) →
  split_stems fs split
    = list_to_set (read_split_list (sets_file fs (split +:+ ".txt"))) ∧
  imgs = [] ∧ anns = [] ∧ cats = categories.
Proof.
  intros Hne Hnone Hrun.
  assert (Hs : split_stems fs split
    = list_to_set (read_split_list (sets_file fs (split +:+ ".txt")))).
  { unfold split_stems. rewrite bool_decide_eq_false_2; [done|].
    destruct (read_split_list _) as [|x l]; [done|]. set_solver. }
  split; [done|]. destruct (collect_blocks _ _ _ _ _ Hrun) as [Hb ->].
  pose proof (blocks_length _ _ _ _ _ _ Hb) as Hlen.
  rewrite filter_none in Hlen.
  - apply nil_length_inv in Hlen as ->. split_and!; [done| |done].
    destruct anns as [|a anns]; [done|].
    pose proof (blocks_image_id_range _ _ _ _ _ _ a Hb) as Hrange.
    simpl in Hrange. specialize (Hrange ltac:(by left)). lia.
  - intros x Hx%sorted_elem_of. rewrite Hs in Hx.
    apply elem_of_list_to_set in Hx. by apply resolvable_None, Hnone.
Qed.

(** X10: in the directory scan, on a tree whose listings agree with the
    files that exist, every file of a known subcategory with a non-empty
    name and the extension [.png], [.jpg] or [.JPG] has its base name
    resolved, and so gets an image record. *)
Theorem scanned_images_are_resolved fs split d c s ext imgs anns cats :
  read_split_list (sets_file fs (split +:+ ".txt")) = [] →
  listed_files_exist fs →
  d ∈ subcategory_names → (d, true) ∈ root_glob fs → images_exists fs d →
  ext ∈ [".png"; ".jpg"; ".JPG"] →
  String c s +:+ ext ∈ images_glob fs d →
  collect_annotations_for_split fs split = Ok (imgs, anns, cats) →
  String c s ∈ resolved_stems fs split ∧
  ∃ i d' f' w h,
    find_image fs (String c s) subcategory_names = Some (d', f') ∧
    imgs !! i = Some (image_record (Z.of_nat (S i)) d' f' w h).
Proof.
  intros Hfile Hlisted Hd Hroot Hex Hext Hglob [Hb _]%collect_blocks.
  assert (Himg : ext ∈ image_exts).
  { unfold image_exts. set_solver. }
  pose proof stem_undoes_extension_lemma as Hstem.
  rewrite Forall_forall in Hstem.
  destruct (Hstem _ Himg c s) as (Hst & Hends & _).
  assert (Hin : String c s ∈ split_stems fs split).
  { unfold split_stems. rewrite Hfile. cbn.
    apply elem_of_fallback_stems. exists d, (String c s +:+ ext).
    split_and!; try done.
    - intros ->. unfold subcategory_names in Hd. set_solver.
    - unfold globbed. set_solver. }
  assert (Hres : resolvable fs (String c s)).
  { apply resolvable_spec. rewrite find_image_first.
    apply fmap_is_Some.
    apply (list_find_elem_of _ _ (d, String c s +:+ ext)); [|by apply Hlisted].
    apply list_elem_of_bind. exists d. split; [|done].
    apply list_elem_of_fmap. by exists ext. }
  assert (Hrs : String c s ∈ resolved_stems fs split).
  { apply list_elem_of_filter. split; [done|by apply sorted_elem_of]. }
  split; [done|].
  apply list_elem_of_lookup in Hrs as [i Hi].
  destruct (blocks_lookup _ _ _ _ _ _ _ _ Hb Hi)
    as (d' & f' & w & h & b & aid & Hf & _ & Him & _).
  exists i, d', f', w, h. split; [done|].
  by replace (Z.of_nat (S i)) with (1 + Z.of_nat i) by lia.
Qed.

(** X11: every annotation record has [iscrowd] 0 and belongs to the image
    of a resolvable base name.  The category of the full-image record of
    an image is the default category id of its subcategory, which is the
    id of a listed category; the category of the record made from a row of
    the CSV file of an image is the integer that [int] reads in the label
    cell of that row, 1 when the row has no [label] key, whether or not
    such a category is listed. *)
Theorem annotation_categories fs split imgs anns cats a :
  collect_annotations_for_split fs split = Ok (imgs, anns, cats) →
  a ∈ anns →
  ann_iscrowd a = 0 ∧
  ∃ i s d f w h,
    resolved_stems fs split !! i = Some s ∧
    find_image fs s subcategory_names = Some (d, f) ∧
    imgs !! i = Some (image_record (Z.of_nat (S i)) d f w h) ∧
    ann_image_id a = Z.of_nat (S i) ∧
    let dflt := default 1 (category_id_map !! d) in
    ((a = full_image_annotation (ann_id a) (Z.of_nat (S i)) dflt w h ∧
      ann_category_id a = dflt ∧
      ∃ c, c ∈ cats ∧ cat_id c = ann_category_id a) ∨
     (∃ c row b label,
        csv_file fs d (s +:+ ".csv") = Some c ∧
        row ∈ DictReader c ∧
        parse_row row = Ok (Some b) ∧
        a = box_annotation (ann_id a) (Z.of_nat (S i)) dflt b ∧
        int (label_cell row) = Ok label ∧
        ann_category_id a = label ∧
        (row !! "label" = None → label = 1))).
Proof.
  intros Hrun Ha. destruct (collect_blocks _ _ _ _ _ Hrun) as [Hb ->].
  destruct (blocks_source _ _ _ _ _ _ _ Hb Ha)
    as (i & s & d & f & w & h & Hs & Hf & Hsz & Him & Hid & Hsrc).
  replace (1 + Z.of_nat i) with (Z.of_nat (S i)) in * by lia.
  cbn zeta in Hsrc.
  destruct Hsrc as [[Hfull _]|(c & row & b & Hc & Hrow & Hp & Hbox)].
  - split; [by rewrite Hfull|]. exists i, s, d, f, w, h.
    split_and!; [done..|]. left.
    assert (Hcat : ann_category_id a = default 1 (category_id_map !! d))
      by (by rewrite Hfull).
    split_and!; [done..|]. rewrite Hcat.
    destruct (default_category_id _ _ _ _ Hf) as [[_ ->]|[_ ->]].
    + eexists. split; [by left|done].
    + eexists. split; [right; by left|done].
  - split; [by rewrite Hbox|]. exists i, s, d, f, w, h.
    split_and!; [done..|]. right.
    pose proof Hp as Hacc. apply parse_row_accepts in Hacc
      as (_ & x & y & wd & ht & lb & _ & _ & _ & _ & Hlb & _ & _ & Hb').
    exists c, row, b, lb. split_and!; [done..|by rewrite Hbox, Hb'|].
    intros Hl. unfold label_cell, dict_get in Hlb. rewrite Hl in Hlb.
    simpl in Hlb. by injection Hlb as <-.
Qed.

(** *** File names of the image records *)

Lemma list_ascii_append (s t : string) :
  list_ascii_of_string (s +:+ t)
  = list_ascii_of_string s ++ list_ascii_of_string t.
Proof. induction s as [|c s IH]; simpl; [done|]. by rewrite IH. Qed.

Lemma path_name_no_slash (f : string) :
  "/"%char ∉ list_ascii_of_string f → path_name f = f.
Proof.
  destruct f as [|c rest]; [done|]. cbn [path_name list_ascii_of_string].
  intros Hno. rewrite not_elem_of_cons in Hno. destruct Hno as [Hc Hrest].
  by rewrite !bool_decide_eq_false_2.
Qed.

Lemma image_exts_no_slash ext :
  ext ∈ image_exts → "/"%char ∉ list_ascii_of_string ext.
Proof.
  intros Hext Hin. unfold image_exts in Hext.
  repeat (apply elem_of_cons in Hext as [Hext|Hext];
          [subst ext; simpl in Hin;
           repeat (apply elem_of_cons in Hin as [Hin|Hin]; [done|]);
           by apply elem_of_nil in Hin|]).
  by apply elem_of_nil in Hext.
Qed.

(** Two base names without ['/'] that are resolved give records with
    different file names. *)
Lemma file_name_inj fs s1 s2 d1 f1 d2 f2 :
  s1 ≠ "" → s2 ≠ "" →
  "/"%char ∉ list_ascii_of_string s1 → "/"%char ∉ list_ascii_of_string s2 →
  find_image fs s1 subcategory_names = Some (d1, f1) →
  find_image fs s2 subcategory_names = Some (d2, f2) →
  "blueberries/" +:+ d1 +:+ "/images/" +:+ path_name f1
  = "blueberries/" +:+ d2 +:+ "/images/" +:+ path_name f2 →
  s1 = s2.
Proof.
  intros Hn1 Hn2 Hs1 Hs2
    (Hd1 & ext1 & He1 & -> & _)%find_image_subcat
    (Hd2 & ext2 & He2 & -> & _)%find_image_subcat.
  rewrite !path_name_no_slash
    by (rewrite list_ascii_append, not_elem_of_app;
        eauto using image_exts_no_slash).
  intros Heq.
  assert (Hf : s1 +:+ ext1 = s2 +:+ ext2).
  { unfold subcategory_names in Hd1, Hd2.
    apply elem_of_cons in Hd1 as [->|Hd1], Hd2 as [->|Hd2];
      try apply list_elem_of_singleton in Hd1 as ->;
      try apply list_elem_of_singleton in Hd2 as ->;
      simpl in Heq; by simplify_eq. }
  pose proof stem_undoes_extension_lemma as Hstem.
  rewrite Forall_forall in Hstem.
  destruct s1 as [|c1 s1]; [done|]. destruct s2 as [|c2 s2]; [done|].
  destruct (Hstem _ He1 c1 s1) as (<- & _).
  destruct (Hstem _ He2 c2 s2) as (<- & _).
  by rewrite Hf.
Qed.

(** X16: when no base name of the split holds a ['/'], the image records
    have pairwise different file names: a base name gives one record, under
    the first subcategory and extension found, and two base names never
    give the same file. *)
Theorem image_file_names_distinct fs split imgs anns cats :
  (∀ s, s ∈ split_stems fs split →
        s ≠ "" ∧ "/"%char ∉ list_ascii_of_string s) →
  collect_annotations_for_split fs split = Ok (imgs, anns, cats) →
  NoDup (img_file_name <$> imgs).
Proof.
  intros Hstems [Hb _]%collect_blocks.
  pose proof (blocks_length _ _ _ _ _ _ Hb) as Hlen.
  assert (Hstem_of : ∀ i name,
    (img_file_name <$> imgs) !! i = Some name →
    ∃ s d f, resolved_stems fs split !! i = Some s ∧
             find_image fs s subcategory_names = Some (d, f) ∧
             name = "blueberries/" +:+ d +:+ "/images/" +:+ path_name f).
  { intros i name Hi.
    apply list_lookup_fmap_Some in Hi as (im & -> & Him).
    assert (Hlt : (i < length (resolved_stems fs split))%nat).
    { unfold resolved_stems. rewrite <- Hlen.
      by eapply lookup_lt_Some. }
    destruct (lookup_lt_is_Some_2 _ _ Hlt) as [s Hs].
    destruct (blocks_lookup _ _ _ _ _ _ _ _ Hb Hs)
      as (d & f & w & h & b & aid & Hf & _ & Him' & _).
    rewrite Him in Him'. injection Him' as ->.
    by exists s, d, f. }
  apply NoDup_alt. intros i j name Hi Hj.
  destruct (Hstem_of _ _ Hi) as (s1 & d1 & f1 & Hs1 & Hf1 & ->).
  destruct (Hstem_of _ _ Hj) as (s2 & d2 & f2 & Hs2 & Hf2 & Heq).
  assert (Hin : ∀ k s, resolved_stems fs split !! k = Some s →
                       s ∈ split_stems fs split).
  { intros k s Hk. apply list_elem_of_lookup_2 in Hk.
    apply list_elem_of_filter in Hk as [_ Hk]. by apply sorted_elem_of. }
  destruct (Hstems _ (Hin _ _ Hs1)) as [Hn1 Hsl1].
  destruct (Hstems _ (Hin _ _ Hs2)) as [Hn2 Hsl2].
  assert (s1 = s2) as <- by (by eapply file_name_inj).
  eapply NoDup_lookup; [|done..]. apply resolved_stems_sorted.
Qed.
End aggregator.

(** ** The program *)
Section program.
Import Python Coco Cli.
Context `{Builtins}.

(** *** Writing a list of files *)

(** What [dump_all] leaves: every file whole when no write raises, and
    else the files before the one whose write raises, whole, followed by
    that file, cut short, when it is [json.dump] that raises. *)
Lemma dump_all_spec os files :
  match (dump_all os files).2 with
  | None =>
      Forall (dumped os) files ∧ (dump_all os files).1 = whole <$> files
  | Some e =>
      ∃ done nc rest,
        files = done ++ nc :: rest ∧ Forall (dumped os) done ∧
        ((dump_result_of os nc.1 nc.2 = OpenRaises e ∧
          (dump_all os files).1 = whole <$> done) ∨
         (dump_result_of os nc.1 nc.2 = DumpRaises e ∧
          (dump_all os files).1 = (whole <$> done) ++ [(nc.1, Truncated)]))
  end.
Proof.
  induction files as [|[name c] files IH]; [by split|].
  cbn [dump_all].
  destruct (dump_result_of os name c) as [|e|e] eqn:Hd.
  - destruct (dump_all os files) as [log [e|]]; cbn [fst snd] in *.
    + destruct IH as (done & nc & rest & -> & Hdone & Hlog).
      exists ((name, c) :: done), nc, rest. split; [done|].
      split; [by constructor|].
      destruct Hlog as [[? ->]|[? ->]]; [left|right]; done.
    + destruct IH as [Hall ->]. split; [by constructor|done].
  - exists [], (name, c), files. split_and!; [done|constructor|by left].
  - exists [], (name, c), files. split_and!; [done|constructor|by right].
Qed.


(** A file left whole is a file of the list, whose write returned. *)
Lemma dump_all_whole os files name c :
  (name, Whole c) ∈ (dump_all os files).1 →
  (name, c) ∈ files ∧ dump_result_of os name c = Dumped.
Proof.
  induction files as [|[name' c'] files IH]; cbn [dump_all].
  - by intros ?%elem_of_nil.
  - destruct (dump_result_of os name' c') as [|e|e] eqn:Hd.
    + destruct (dump_all os files) as [log r]. cbn [fst snd] in *.
      intros [[= -> ->]|Hin]%elem_of_cons.
      * split; [by left|done].
      * destruct (IH Hin). split; [by right|done].
    + by intros ?%elem_of_nil.
    + by intros [[=]|?%elem_of_nil]%elem_of_cons.
Qed.

(** A file cut short is the last that was written: the write of
    [json.dump] raised for it, and the files before it are whole. *)
Lemma dump_all_truncated os files name :
  (name, Truncated) ∈ (dump_all os files).1 →
  ∃ e c done rest,
    files = done ++ (name, c) :: rest ∧
    dump_result_of os name c = DumpRaises e ∧
    (dump_all os files).2 = Some e ∧
    (dump_all os files).1 = (whole <$> done) ++ [(name, Truncated)].
Proof.
  assert (Hwhole : ∀ l : list (string * coco_dict),
            (name, Truncated) ∉ whole <$> l).
  { intros l ([n c] & [=] & _)%list_elem_of_fmap. }
  pose proof (dump_all_spec os files) as Hspec.
  destruct (dump_all os files) as [log [e|]]; cbn [fst snd] in *.
  - destruct Hspec as (done & [n c] & rest & -> & _ & [[_ ->]|[Hd ->]]);
      cbn [fst snd] in *.
    + by intros ?%Hwhole.
    + intros [?%Hwhole|Hin]%elem_of_app; [done|].
      apply list_elem_of_singleton in Hin as [= ->].
      by exists e, c, done, rest.
  - destruct Hspec as [_ ->]. by intros ?%Hwhole.
Qed.

(** *** The two loops *)

Lemma split_loop_closed os fs splits w :
  let files := files_until_raise "blueberries_instances_" " split" fs splits in
  (split_loop os fs splits w).2 =
    match (dump_all os files).2 with
    | Some e => Some e
    | None => first_raise fs splits
    end ∧
  written (split_loop os fs splits w).1 = written w ++ (dump_all os files).1 ∧
  out_dir_made (split_loop os fs splits w).1 = out_dir_made w.
Proof.
  cbn zeta. revert w. induction splits as [|split splits IH]; intros w.
  - simpl. by rewrite app_nil_r.
  - cbn [split_loop first_raise files_until_raise]. unfold split_file.
    destruct (collect_annotations_for_split fs split)
      as [[[[|im imgs] anns] cats]|e];
      cbn [option_list option_rect app].
    + destruct (IH (print (MsgWarningNoImages split)
                          (print (MsgProcessing split) w)))
        as (-> & -> & ->). done.
    + cbn [dump_all]. unfold json_dump.
      destruct (dump_result_of os _ _) as [|e|e].
      * match goal with |- context [split_loop os fs splits ?w'] =>
          destruct (IH w') as (-> & -> & ->) end.
        destruct (dump_all os _) as [log r].
        cbn [fst snd written set_file print out_dir_made].
        by rewrite <- app_assoc.
      * simpl. by rewrite app_nil_r.
      * done.
    + simpl. by rewrite app_nil_r.
Qed.

Lemma combined_loop_closed os fs splits w :
  let files :=
    files_until_raise "combined_instances_" " split (combined)" fs splits in
  (combined_loop os fs splits w).2 =
    match (dump_all os files).2 with
    | Some e => Some e
    | None => first_raise fs splits
    end ∧
  written (combined_loop os fs splits w).1
    = written w ++ (dump_all os files).1 ∧
  out_dir_made (combined_loop os fs splits w).1 = out_dir_made w.
Proof.
  cbn zeta. revert w. induction splits as [|split splits IH]; intros w.
  - simpl. by rewrite app_nil_r.
  - cbn [combined_loop first_raise files_until_raise]. unfold split_file.
    destruct (collect_annotations_for_split fs split)
      as [[[[|im imgs] anns] cats]|e];
      cbn [option_list option_rect app].
    + destruct (IH w) as (-> & -> & ->). done.
    + cbn [dump_all]. unfold json_dump.
      destruct (dump_result_of os _ _) as [|e|e].
      * match goal with |- context [combined_loop os fs splits ?w'] =>
          destruct (IH w') as (-> & -> & ->) end.
        destruct (dump_all os _) as [log r].
        cbn [fst snd written set_file print out_dir_made].
        by rewrite <- app_assoc.
      * simpl. by rewrite app_nil_r.
      * done.
    + simpl. by rewrite app_nil_r.
Qed.

Lemma first_raise_None fs splits :
  first_raise fs splits = None ↔
  Forall (λ s, is_ok (collect_annotations_for_split fs s)) splits.
Proof.
  induction splits as [|s splits IH]; simpl; [by split; [constructor|]|].
  rewrite Forall_cons, <- IH.
  destruct (collect_annotations_for_split fs s); naive_solver.
Qed.



Lemma files_until_raise_all prefix suffix fs splits :
  Forall (λ s, is_ok (collect_annotations_for_split fs s)) splits →
  files_until_raise prefix suffix fs splits
  = omap (split_file prefix suffix fs) splits.
Proof.
  induction 1 as [|s splits Hok _ IH]; [done|].
  cbn [files_until_raise].
  change (omap (split_file prefix suffix fs) (s :: splits))
    with (match split_file prefix suffix fs s with
          | Some y => y :: omap (split_file prefix suffix fs) splits
          | None => omap (split_file prefix suffix fs) splits
          end).
  rewrite IH. destruct (collect_annotations_for_split fs s); [|done].
  by destruct (split_file prefix suffix fs s).
Qed.



Lemma elem_of_files_until_raise prefix suffix fs splits nc :
  nc ∈ files_until_raise prefix suffix fs splits →
  ∃ split, split ∈ splits ∧ split_file prefix suffix fs split = Some nc.
Proof.
  induction splits as [|s l IH]; simpl.
  - by intros ?%elem_of_nil.
  - destruct (collect_annotations_for_split fs s) eqn:Hs;
      [|by intros ?%elem_of_nil].
    intros [Hin|Hin]%elem_of_app.
    + exists s. split; [by left|].
      destruct (split_file prefix suffix fs s) as [nc'|]; simpl in Hin.
      * by apply list_elem_of_singleton in Hin as ->.
      * by apply elem_of_nil in Hin.
    + destruct (IH Hin) as (s' & ? & ?). exists s'. split; [by right|done].
Qed.

(** *** [main] *)

(** The outcome of [main] and the files it leaves, case by case. *)
Lemma main_closed os category_root_exists fs a :
  let run := main os category_root_exists fs a in
  let individual :=
    dump_all os (files_until_raise "blueberries_instances_" " split" fs
                                   (arg_splits a)) in
  let combined :=
    dump_all os (files_until_raise "combined_instances_" " split (combined)"
                                   fs (arg_splits a)) in
  match mkdir_raises os with
  | Some e => run = (empty_world, Uncaught e)
  | None =>
      if category_root_exists then
        match individual.2, first_raise fs (arg_splits a) with
        | Some e, _ | None, Some e =>
            run.2 = Uncaught e ∧ written run.1 = individual.1
        | None, None =>
            if arg_combined a then
              run.2 = match combined.2 with
                      | Some e => Uncaught e
                      | None => Returned
                      end ∧
              written run.1 = individual.1 ++ combined.1
            else run.2 = Returned ∧ written run.1 = individual.1
        end
      else run.2 = Exited 1 ∧ written run.1 = []
  end.
Proof.
  cbn zeta. unfold main. destruct (mkdir_raises os) as [e|]; [done|].
  destruct category_root_exists; cbn [negb]; [|done].
  match goal with |- context [split_loop os fs (arg_splits a) ?w'] =>
    pose proof (split_loop_closed os fs (arg_splits a) w') as (H1 & H2 & _);
    destruct (split_loop os fs (arg_splits a) w') as [w1 r1] end.
  cbn [fst snd] in *. subst r1. cbn in H2.
  destruct (dump_all os (files_until_raise "blueberries_instances_" _ _ _)).2
    as [e|]; [done|].
  destruct (first_raise fs (arg_splits a)) as [e|] eqn:Hfirst; [done|].
  destruct (arg_combined a); [|done].
  match goal with |- context [combined_loop os fs (arg_splits a) ?w'] =>
    pose proof (combined_loop_closed os fs (arg_splits a) w')
      as (H4 & H5 & _);
    destruct (combined_loop os fs (arg_splits a) w') as [w2 r2] end.
  cbn [fst snd written print] in *. subst r2. rewrite Hfirst.
  destruct (dump_all os (files_until_raise "combined_instances_" _ _ _)).2;
    cbn [fst snd written print]; by rewrite H5, H2.
Qed.

(** What the file of a split holds. *)
Lemma split_file_consistent prefix suffix fs split name c :
  split_file prefix suffix fs split = Some (name, c) →
  name = prefix +:+ split +:+ ".json" ∧
  collect_annotations_for_split fs split = Ok (content c) ∧
  coco_images c ≠ [] ∧
  img_id <$> coco_images c
    = Z.of_nat <$> seq 1 (length (coco_images c)) ∧
  ann_id <$> coco_annotations c
    = Z.of_nat <$> seq 1 (length (coco_annotations c)) ∧
  (∀ x, x ∈ coco_annotations c →
        ∃ im, im ∈ coco_images c ∧ img_id im = ann_image_id x) ∧
  coco_categories c = categories ∧
  info_version (coco_info c) = "1.0.0" ∧
  lic_name <$> coco_licenses c = ["CC BY 4.0"].
Proof.
  unfold split_file.
  destruct (collect_annotations_for_split fs split)
    as [[[[|im imgs] anns] cats]|e] eqn:Hrun; try done.
  intros [= <- <-]. cbn [content coco_images coco_annotations
    coco_categories coco_info coco_licenses build_coco_dict
    info_version fmap list_fmap lic_name].
  destruct (collect_blocks _ _ _ _ _ Hrun) as [Hb ->].
  split_and!; try done.
  - apply (ids_from_one img_id (im :: imgs)). by eapply blocks_img_ids.
  - apply ids_from_one. by eapply blocks_ann_ids.
  - intros x Hx.
    pose proof (blocks_image_id_range _ _ _ _ _ _ _ Hb Hx) as Hrange.
    pose proof (blocks_img_ids _ _ _ _ _ _ Hb) as Hids.
    set (k := Z.to_nat (ann_image_id x - 1)).
    assert (Hk : (k < length (im :: imgs))%nat) by lia.
    destruct (lookup_lt_is_Some_2 (im :: imgs) k Hk) as [im' Him].
    exists im'. split; [by eapply list_elem_of_lookup_2|].
    apply (f_equal (λ l, l !! k)) in Hids.
    rewrite !list_lookup_fmap, Him, lookup_seq_lt in Hids by done.
    simpl in Hids. injection Hids as ->. lia.
Qed.

(** X12: a file that [json.dump] leaves cut short ends the run.  Such a
    file is the last file written; the exception of the write goes through
    [main]; the files written before it are whole; and it was to hold the
    output of the aggregator for one of the splits asked for. *)
Theorem failed_write_ends_the_run os category_root_exists fs a name :
  (name, Truncated) ∈ written (main os category_root_exists fs a).1 →
  ∃ e c l split,
    (main os category_root_exists fs a).2 = Uncaught e ∧
    dump_result_of os name c = DumpRaises e ∧
    written (main os category_root_exists fs a).1
      = (whole <$> l) ++ [(name, Truncated)] ∧
    split ∈ arg_splits a ∧
    (split_file "blueberries_instances_" " split" fs split = Some (name, c) ∨
     split_file "combined_instances_" " split (combined)" fs split
       = Some (name, c)).
Proof.
  pose proof (main_closed os category_root_exists fs a) as Hmain.
  cbn zeta in Hmain.
  set (ind := files_until_raise "blueberries_instances_" " split" fs
                                (arg_splits a)) in *.
  set (comb := files_until_raise "combined_instances_" " split (combined)"
                                 fs (arg_splits a)) in *.
  assert (Hind : (name, Truncated) ∈ (dump_all os ind).1 →
    ∃ e c l split,
      (dump_all os ind).2 = Some e ∧
      dump_result_of os name c = DumpRaises e ∧
      (dump_all os ind).1 = (whole <$> l) ++ [(name, Truncated)] ∧
      split ∈ arg_splits a ∧
      split_file "blueberries_instances_" " split" fs split
        = Some (name, c)).
  { intros (e & c & done & rest & Hfiles & Hd & Hr & Hlog)
           %dump_all_truncated.
    destruct (elem_of_files_until_raise
                "blueberries_instances_" " split" fs (arg_splits a) (name, c))
      as (split & ? & ?).
    { fold ind. rewrite Hfiles. apply elem_of_app. right. by left. }
    by exists e, c, done, split. }
  destruct (mkdir_raises os) as [e|].
  { rewrite Hmain. by intros ?%elem_of_nil. }
  destruct category_root_exists.
  2: { destruct Hmain as [_ ->]. by intros ?%elem_of_nil. }
  pose proof (dump_all_spec os ind) as Hspec.
  destruct (dump_all os ind).2 as [e|] eqn:Hr1.
  { destruct Hmain as [-> ->].
    intros (e' & c & l & split & [= ->] & ? & ? & ? & ?)%Hind.
    exists e', c, l, split. eauto 10. }
  destruct Hspec as [_ Hlog1].
  assert (Hno : (name, Truncated) ∉ (dump_all os ind).1).
  { rewrite Hlog1. intros ([n c] & [=] & _)%list_elem_of_fmap. }
  destruct (first_raise fs (arg_splits a)) as [e|].
  { destruct Hmain as [_ ->]. done. }
  destruct (arg_combined a).
  2: { destruct Hmain as [_ ->]. done. }
  destruct Hmain as [-> ->].
  intros [?|Hin]%elem_of_app; [done|].
  apply dump_all_truncated in Hin
    as (e & c & done & rest & Hfiles & Hd & -> & ->).
  destruct (elem_of_files_until_raise
              "combined_instances_" " split (combined)" fs (arg_splits a)
              (name, c))
    as (split & ? & ?).
  { fold comb. rewrite Hfiles. apply elem_of_app. right. by left. }
  exists e, c, (ind ++ done), split.
  rewrite Hlog1, fmap_app, <- app_assoc. eauto 10.
Qed.

(** X13: a run of [main] that returns has found the category root, made
    the output directory, had the aggregator return for every split, and
    written to its end, in the order of the splits, one file
    [blueberries_instances_<split>.json] for each split with at least one
    image and none for the others; with [--combined] it has then written
    [combined_instances_<split>.json] for the same splits, with the same
    images, annotations and categories. *)
Theorem main_writes_splits_with_images os category_root_exists fs a :
  (main os category_root_exists fs a).2 = Returned →
  let individual :=
    omap (split_file "blueberries_instances_" " split" fs) (arg_splits a) in
  let combined :=
    omap (split_file "combined_instances_" " split (combined)" fs)
         (arg_splits a) in
  let files := individual ++ (if arg_combined a then combined else []) in
  category_root_exists = true ∧
  mkdir_raises os = None ∧
  Forall (λ s, is_ok (collect_annotations_for_split fs s)) (arg_splits a) ∧
  written (main os category_root_exists fs a).1 = whole <$> files ∧
  Forall (dumped os) files ∧
  (λ nc, content nc.2) <$> combined = (λ nc, content nc.2) <$> individual ∧
  ∀ nc, nc ∈ individual ++ combined → coco_images nc.2 ≠ [].
Proof.
  intros Hret. cbn zeta.
  pose proof (main_closed os category_root_exists fs a) as Hmain.
  cbn zeta in Hmain.
  assert (Hfacts :
    category_root_exists = true ∧ mkdir_raises os = None ∧
    Forall (λ s, is_ok (collect_annotations_for_split fs s)) (arg_splits a) ∧
    written (main os category_root_exists fs a).1
      = whole <$> (omap (split_file "blueberries_instances_" " split" fs)
                        (arg_splits a)
                   ++ (if arg_combined a
                       then omap (split_file "combined_instances_"
                                             " split (combined)" fs)
                                 (arg_splits a)
                       else [])) ∧
    Forall (dumped os)
           (omap (split_file "blueberries_instances_" " split" fs)
                 (arg_splits a)
            ++ (if arg_combined a
                then omap (split_file "combined_instances_"
                                      " split (combined)" fs)
                          (arg_splits a)
                else []))).
  { destruct (mkdir_raises os) as [e|].
    { rewrite Hmain in Hret. done. }
    destruct category_root_exists.
    2: { destruct Hmain as [Hout _]. congruence. }
    pose proof (dump_all_spec os
      (files_until_raise "blueberries_instances_" " split" fs (arg_splits a)))
      as Hspec1.
    destruct (dump_all os (files_until_raise "blueberries_instances_" _ _ _)).2
      as [e|].
    { destruct Hmain as [Hout _]. congruence. }
    destruct (first_raise fs (arg_splits a)) as [e|] eqn:Hfirst.
    { destruct Hmain as [Hout _]. congruence. }
    apply first_raise_None in Hfirst.
    rewrite !files_until_raise_all in * by done.
    destruct Hspec1 as [Hd1 Hlog1].
    destruct (arg_combined a).
    - pose proof (dump_all_spec os
        (omap (split_file "combined_instances_" " split (combined)" fs)
              (arg_splits a))) as Hspec2.
      destruct Hmain as [Hout Hw].
      destruct (dump_all os (omap (split_file "combined_instances_" _ _) _)).2
        as [e|]; [congruence|].
      destruct Hspec2 as [Hd2 Hlog2].
      split_and!; [done..| |by apply Forall_app].
      by rewrite Hw, Hlog1, Hlog2, fmap_app.
    - destruct Hmain as [_ Hw]. rewrite app_nil_r.
      split_and!; [done..| |done]. by rewrite Hw, Hlog1. }
  destruct Hfacts as (? & ? & ? & ? & ?).
  split_and!; [done..| |].
  - assert (Hpt : ∀ s,
      (λ nc, content nc.2)
        <$> split_file "combined_instances_" " split (combined)" fs s
      = (λ nc, content nc.2)
        <$> split_file "blueberries_instances_" " split" fs s).
    { intros s. unfold split_file.
      by destruct (collect_annotations_for_split fs s)
        as [[[[|im imgs] anns] cats]|e]. }
    clear -Hpt.
    induction (arg_splits a) as [|s l IH]; [done|].
    specialize (Hpt s).
    change (omap ?f (s :: l))
      with (match f s with Some y => y :: omap f l | None => omap f l end).
    destruct (split_file "combined_instances_" _ fs s) as [nc1|],
             (split_file "blueberries_instances_" _ fs s) as [nc2|];
      cbn [fmap option_fmap option_map] in Hpt; try done.
    cbn [fmap list_fmap]. f_equal; [congruence|apply IH].
  - intros [n c] Hin.
    assert (Hsf : ∃ prefix suffix s, split_file prefix suffix fs s
                                     = Some (n, c)).
    { apply elem_of_app in Hin as [Hin|Hin];
        apply list_elem_of_omap in Hin as (s & _ & Hs); eauto. }
    destruct Hsf as (prefix & suffix & s & Hs).
    by apply split_file_consistent in Hs as (_ & _ & ? & _).
Qed.


(** X15: however the run ends, every file that [main] has written to its
    end holds the output of the aggregator for one of the splits asked
    for, under the name of that split: at least one image, the image
    identifiers 1..N, the annotation identifiers 1..M, every annotation
    referring to an image of the file, and the fixed categories, licence
    and version. *)
Theorem written_files_are_consistent os category_root_exists fs a name c :
  (name, Whole c) ∈ written (main os category_root_exists fs a).1 →
  dump_result_of os name c = Dumped ∧
  ∃ split,
    split ∈ arg_splits a ∧
    collect_annotations_for_split fs split = Ok (content c) ∧
    (name = "blueberries_instances_" +:+ split +:+ ".json" ∨
     name = "combined_instances_" +:+ split +:+ ".json") ∧
    coco_images c ≠ [] ∧
    img_id <$> coco_images c
      = Z.of_nat <$> seq 1 (length (coco_images c)) ∧
    ann_id <$> coco_annotations c
      = Z.of_nat <$> seq 1 (length (coco_annotations c)) ∧
    (∀ x, x ∈ coco_annotations c →
          ∃ im, im ∈ coco_images c ∧ img_id im = ann_image_id x) ∧
    coco_categories c = categories ∧
    info_version (coco_info c) = "1.0.0" ∧
    lic_name <$> coco_licenses c = ["CC BY 4.0"].
Proof.
  pose proof (main_closed os category_root_exists fs a) as Hmain.
  cbn zeta in Hmain. intros Hin.
  assert (Hsf : dump_result_of os name c = Dumped ∧
    ∃ split prefix suffix,
      split ∈ arg_splits a ∧
      (prefix = "blueberries_instances_" ∨ prefix = "combined_instances_") ∧
      split_file prefix suffix fs split = Some (name, c)).
  { assert (Hlog : ∀ prefix suffix,
      (prefix = "blueberries_instances_" ∨ prefix = "combined_instances_") →
      (name, Whole c)
        ∈ (dump_all os (files_until_raise prefix suffix fs (arg_splits a))).1 →
      dump_result_of os name c = Dumped ∧
      ∃ split prefix suffix,
        split ∈ arg_splits a ∧
        (prefix = "blueberries_instances_" ∨ prefix = "combined_instances_") ∧
        split_file prefix suffix fs split = Some (name, c)).
    { intros prefix suffix Hprefix [Hfile Hd]%dump_all_whole.
      split; [done|].
      apply elem_of_files_until_raise in Hfile as (split & ? & ?).
      by exists split, prefix, suffix. }
    destruct (mkdir_raises os) as [e|].
    { rewrite Hmain in Hin. by apply elem_of_nil in Hin. }
    destruct category_root_exists.
    2: { destruct Hmain as [_ Hw]. rewrite Hw in Hin.
         by apply elem_of_nil in Hin. }
    destruct (dump_all os (files_until_raise "blueberries_instances_" _ _ _)).2
      as [e|].
    { destruct Hmain as [_ Hw]. rewrite Hw in Hin.
      apply (Hlog _ _ (or_introl eq_refl) Hin). }
    destruct (first_raise fs (arg_splits a)) as [e|].
    { destruct Hmain as [_ Hw]. rewrite Hw in Hin.
      apply (Hlog _ _ (or_introl eq_refl) Hin). }
    destruct (arg_combined a).
    - destruct Hmain as [_ Hw]. rewrite Hw in Hin.
      apply elem_of_app in Hin as [Hin|Hin].
      + apply (Hlog _ _ (or_introl eq_refl) Hin).
      + apply (Hlog _ _ (or_intror eq_refl) Hin).
    - destruct Hmain as [_ Hw]. rewrite Hw in Hin.
      apply (Hlog _ _ (or_introl eq_refl) Hin). }
  destruct Hsf as (Hd & split & prefix & suffix & Hsplit & Hprefix & Hsf).
  split; [done|]. exists split.
  apply split_file_consistent in Hsf as (-> & ? & ? & ? & ? & ? & ? & ? & ?).
  split_and!; try done.
  destruct Hprefix as [-> | ->]; [by left|by right].
Qed.
End program.

(** ** The further properties on explicit trees *)
Section more_runs.
Import Python Coco Instance64 Trees Cli MoreTrees.

Lemma lookup_file_listed {A} (l : list (string * A)) f :
  f ∈ l.*1 → is_Some (lookup_file l f).
Proof.
  induction l as [|[g a] l IH]; simpl; [by intros ?%elem_of_nil|].
  case_bool_decide as Hg; [eauto|].
  intros [->|?]%elem_of_cons; [done|auto].
Qed.

Lemma tree_listed_files_exist train hl bl hc bc extra :
  listed_files_exist (tree train hl bl hc bc extra).
Proof.
  intros d f. unfold tree. cbn [images_glob images_file].
  destruct (lookup_file _ d) as [l|]; cbn [default mbind option_bind];
    [apply lookup_file_listed|by intros ?%elem_of_nil].
Qed.

Lemma X2_item_test_reads_header_witness :
  has_item (dict_row header ["7"; "0"; "0"; "50"; "50"; "2"])
  = bool_decide ("#item" ∈ header ∨ "item" ∈ header).
Proof.
  apply (item_test_reads_header header ["7"; "0"; "0"; "50"; "50"; "2"]).
  simpl. lia.
Defined.

Lemma X4_missing_columns_defaults_witness :
  (row_no_label !! "label" = None → ∀ b, parse_row row_no_label = Ok (Some b) →
     box_category_id b = Some 1) ∧
  (row_no_label !! "x" = None → ∀ b, parse_row row_no_label = Ok (Some b) →
     box_bbox b !! 0%nat = Some (NFloat (float_of_int 0))) ∧
  (row_no_label !! "y" = None → ∀ b, parse_row row_no_label = Ok (Some b) →
     box_bbox b !! 1%nat = Some (NFloat (float_of_int 0))) ∧
  (row_no_label !! "width" = None → row_no_label !! "w" = None →
     row_no_label !! "dx" = None → row_box row_no_label = None) ∧
  (row_no_label !! "height" = None → row_no_label !! "h" = None →
     row_no_label !! "dy" = None → row_box row_no_label = None).
Proof. exact (missing_columns_defaults row_no_label eq_refl). Defined.

Lemma X5_full_row_is_never_fatal_witness :
  try_row (dict_row header ["1"; "0"; "0"; "wide"; "50"; "1"])
  = Ok (row_box (dict_row header ["1"; "0"; "0"; "wide"; "50"; "1"])).
Proof.
  apply (full_row_is_never_fatal header ["1"; "0"; "0"; "wide"; "50"; "1"]).
  simpl. lia.
Defined.

Lemma short_row_listed :
  "a" ∈ split_stems fs_short_row "train".
Proof.
  assert (Hs : split_stems fs_short_row "train" = {["a"]}) by reflexivity.
  rewrite Hs. by apply elem_of_singleton.
Qed.

Lemma short_row_read :
  dict_row header ["0"; "0"; "0"; "50"] ∈ DictReader csv_short_row.
Proof. by left. Qed.

Lemma X6_type_error_row_witness :
  ∃ e, collect_annotations_for_split fs_short_row "train" = Raise e.
Proof.
  exact (type_error_row_fails_the_split fs_short_row "train" "a" "healthy"
           "a.jpg" csv_short_row (dict_row header ["0"; "0"; "0"; "50"])
           short_row_listed eq_refl eq_refl short_row_read eq_refl).
Defined.

Lemma X7_every_image_is_annotated_witness :
  (length example_images ≤ length example_annotations)%nat ∧
  ∀ im, im ∈ example_images →
        ∃ a, a ∈ example_annotations ∧ ann_image_id a = img_id im.
Proof.
  exact (every_image_is_annotated fs_spec_example "train" _ _ _
           run_spec_example).
Defined.

Lemma X8_annotations_grouped_witness :
  StronglySorted Z.le (ann_image_id <$> example_annotations).
Proof.
  exact (annotations_grouped_by_image fs_spec_example "train" _ _ _
           run_spec_example).
Defined.

Lemma other_names_listed :
  read_split_list (sets_file fs_other_names ("train" +:+ ".txt"))
  = ["zzz"; "yyy"].
Proof. reflexivity. Qed.

Lemma other_names_not_empty :
  read_split_list (sets_file fs_other_names ("train" +:+ ".txt")) ≠ [].
Proof. by rewrite other_names_listed. Qed.

Lemma other_names_unresolved x :
  x ∈ read_split_list (sets_file fs_other_names ("train" +:+ ".txt")) →
  find_image fs_other_names x subcategory_names = None.
Proof.
  rewrite other_names_listed.
  intros [->|[->|?%elem_of_nil]%elem_of_cons]%elem_of_cons; done.
Qed.

Lemma run_other_names :
  collect_annotations_for_split fs_other_names "train"
  = Ok ([], [], categories).
Proof. reflexivity. Qed.

Lemma X9_split_of_missing_names_witness :
  split_stems fs_other_names "train"
    = list_to_set
        (read_split_list (sets_file fs_other_names ("train" +:+ ".txt"))) ∧
  [] = ([] : list image) ∧ [] = ([] : list annotation) ∧
  categories = categories.
Proof.
  exact (split_of_missing_names_is_empty fs_other_names "train" _ _ _
           other_names_not_empty other_names_unresolved run_other_names).
Defined.

Lemma X10_scanned_images_witness :
  ∃ imgs anns cats,
    collect_annotations_for_split fs_scan "train" = Ok (imgs, anns, cats) ∧
    "a" ∈ resolved_stems fs_scan "train" ∧
    ∃ i d' f' w h,
      find_image fs_scan "a" subcategory_names = Some (d', f') ∧
      imgs !! i = Some (image_record (Z.of_nat (S i)) d' f' w h).
Proof.
  eexists _, _, _. split; [reflexivity|].
  refine (scanned_images_are_resolved fs_scan "train" "healthy"
            "a"%char "" ".jpg" _ _ _ eq_refl
            (tree_listed_files_exist _ _ _ _ _ _) _ _ _ _ _ eq_refl).
  - by left.
  - right. by left.
  - done.
  - right. by left.
  - by left.
Defined.

Lemma X11_annotation_categories_witness :
  ann_iscrowd (box_annotation 2 2 2 example_box) = 0 ∧
  ∃ i s d f w h,
    resolved_stems fs_spec_example "train" !! i = Some s ∧
    find_image fs_spec_example s subcategory_names = Some (d, f) ∧
    example_images !! i = Some (image_record (Z.of_nat (S i)) d f w h) ∧
    ann_image_id (box_annotation 2 2 2 example_box) = Z.of_nat (S i) ∧
    let dflt := default 1 (category_id_map !! d) in
    ((box_annotation 2 2 2 example_box
        = full_image_annotation (ann_id (box_annotation 2 2 2 example_box))
                                (Z.of_nat (S i)) dflt w h ∧
      ann_category_id (box_annotation 2 2 2 example_box) = dflt ∧
      ∃ c, c ∈ categories ∧
           cat_id c = ann_category_id (box_annotation 2 2 2 example_box)) ∨
     (∃ c row b label,
        csv_file fs_spec_example d (s +:+ ".csv") = Some c ∧
        row ∈ DictReader c ∧
        parse_row row = Ok (Some b) ∧
        box_annotation 2 2 2 example_box
          = box_annotation (ann_id (box_annotation 2 2 2 example_box))
                           (Z.of_nat (S i)) dflt b ∧
        int (label_cell row) = Ok label ∧
        ann_category_id (box_annotation 2 2 2 example_box) = label ∧
        (row !! "label" = None → label = 1))).
Proof.
  refine (annotation_categories fs_spec_example "train" _ _ _
            (box_annotation 2 2 2 example_box) run_spec_example _).
  right. left.
Defined.

(** The run on the three splits: two files in the first pass, two in the
    second, none for the split without image. *)
Lemma run_three_splits :
  fst <$> written (main os_plain true fs_three_splits all_splits).1
  = ["blueberries_instances_train.json"; "blueberries_instances_val.json";
     "combined_instances_train.json"; "combined_instances_val.json"].
Proof. reflexivity. Qed.

(** The same run when the write of the second file is cut short. *)
Lemma run_three_splits_cut :
  last (written (main os_val_cut true fs_three_splits all_splits).1)
  = Some ("blueberries_instances_val.json", Truncated).
Proof. reflexivity. Qed.

Lemma val_file_cut :
  ("blueberries_instances_val.json", Truncated)
  ∈ written (main os_val_cut true fs_three_splits all_splits).1.
Proof.
  pose proof run_three_splits_cut as Hlast.
  apply last_Some in Hlast as [l ->]. apply elem_of_app. right. by left.
Qed.

Lemma X12_failed_write_witness :
  ∃ e c l split,
    (main os_val_cut true fs_three_splits all_splits).2 = Uncaught e ∧
    dump_result_of os_val_cut "blueberries_instances_val.json" c
      = DumpRaises e ∧
    written (main os_val_cut true fs_three_splits all_splits).1
      = (whole <$> l) ++ [("blueberries_instances_val.json", Truncated)] ∧
    split ∈ arg_splits all_splits ∧
    (split_file "blueberries_instances_" " split" fs_three_splits split
       = Some ("blueberries_instances_val.json", c) ∨
     split_file "combined_instances_" " split (combined)" fs_three_splits split
       = Some ("blueberries_instances_val.json", c)).
Proof.
  exact (failed_write_ends_the_run os_val_cut true fs_three_splits all_splits
           "blueberries_instances_val.json" val_file_cut).
Defined.

Lemma X13_main_writes_splits_witness :
  let individual :=
    omap (split_file "blueberries_instances_" " split" fs_three_splits)
         (arg_splits all_splits) in
  let combined :=
    omap (split_file "combined_instances_" " split (combined)"
                     fs_three_splits)
         (arg_splits all_splits) in
  let files := individual ++ (if arg_combined all_splits then combined else []) in
  true = true ∧
  mkdir_raises os_plain = None ∧
  Forall (λ s, is_ok (collect_annotations_for_split fs_three_splits s))
         (arg_splits all_splits) ∧
  written (main os_plain true fs_three_splits all_splits).1 = whole <$> files ∧
  Forall (dumped os_plain) files ∧
  (λ nc, content nc.2) <$> combined = (λ nc, content nc.2) <$> individual ∧
  ∀ nc, nc ∈ individual ++ combined → coco_images nc.2 ≠ [].
Proof.
  exact (main_writes_splits_with_images os_plain true fs_three_splits
           all_splits eq_refl).
Defined.


Lemma train_file_written :
  ("blueberries_instances_train.json", Whole train_file)
  ∈ written (main os_plain true fs_three_splits all_splits).1.
Proof.
  assert (Hhd : head (written (main os_plain true fs_three_splits
                                    all_splits).1)
                = Some ("blueberries_instances_train.json", Whole train_file))
    by reflexivity.
  destruct (written (main os_plain true fs_three_splits all_splits).1)
    as [|x l]; [done|].
  injection Hhd as ->. by left.
Qed.

Lemma X15_written_files_witness :
  dump_result_of os_plain "blueberries_instances_train.json" train_file
    = Dumped ∧
  ∃ split,
    split ∈ arg_splits all_splits ∧
    collect_annotations_for_split fs_three_splits split
      = Ok (content train_file) ∧
    ("blueberries_instances_train.json"
       = "blueberries_instances_" +:+ split +:+ ".json" ∨
     "blueberries_instances_train.json"
       = "combined_instances_" +:+ split +:+ ".json") ∧
    coco_images train_file ≠ [] ∧
    img_id <$> coco_images train_file
      = Z.of_nat <$> seq 1 (length (coco_images train_file)) ∧
    ann_id <$> coco_annotations train_file
      = Z.of_nat <$> seq 1 (length (coco_annotations train_file)) ∧
    (∀ x, x ∈ coco_annotations train_file →
          ∃ im, im ∈ coco_images train_file ∧ img_id im = ann_image_id x) ∧
    coco_categories train_file = categories ∧
    info_version (coco_info train_file) = "1.0.0" ∧
    lic_name <$> coco_licenses train_file = ["CC BY 4.0"].
Proof.
  exact (written_files_are_consistent os_plain true fs_three_splits
           all_splits "blueberries_instances_train.json" train_file
           train_file_written).
Defined.

Lemma example_stems_plain s :
  s ∈ split_stems fs_spec_example "train" →
  s ≠ "" ∧ "/"%char ∉ list_ascii_of_string s.
Proof.
  assert (Hs : split_stems fs_spec_example "train" = {["a"; "b"]})
    by reflexivity.
  rewrite Hs.
  intros [Ha%elem_of_singleton|Hb%elem_of_singleton]%elem_of_union; subst s;
    (split; [done|]); simpl;
    by intros [?|?%elem_of_nil]%elem_of_cons.
Qed.

Lemma X16_image_file_names_distinct_witness :
  NoDup (img_file_name <$> example_images).
Proof.
  exact (image_file_names_distinct fs_spec_example "train" _ _ _
           example_stems_plain run_spec_example).
Defined.
End more_runs.
